(** * Waitlist API: entry lifecycle, e-mail verification and admin authentication

    A shallow embedding of the waitlist backend (Mongoose model, service,
    controllers, middleware and the standalone legacy server) together with
    the properties of its entry lifecycle.

    Conventions of the embedding:
    - the collection is the list of its documents in natural (insertion)
      order, which is the order [findOne] scans;
    - JavaScript strings are [string]s; [toLowerCase] folds the ASCII letters
      and [trim] strips ASCII white space;
    - a [null] or missing field is [None];
    - the clock ([new Date()]), the random source ([crypto.randomBytes]) and
      the identifier generator ([new ObjectId]) are explicit inputs of the
      handlers that use them;
    - what the libraries compute (signature recovery, the cast of a string
      to an [ObjectId] and back, pattern matching in the database) is a
      parameter of the definitions that use it;
    - a handler returns the HTTP response, the new collection and the
      messages it handed to the e-mail service;
    - rate limiting is outside the model: a request turned away by a limiter
      reaches no handler. *)

From Stdlib Require Import List String Ascii HexString ZArith NArith Bool Lia.
Import ListNotations.
Open Scope string_scope.

(* ------------------------------------------------------------------ *)
(** ** JavaScript string helpers *)

Module Js.

(** [!s] for a string: only the empty string is falsy. *)
Definition truthy (s : string) : bool := negb (s =? "").

(** Truthiness of an optional string: [null], [undefined] and the empty
    string are falsy. *)
Definition truthyOpt (o : option string) : bool :=
  match o with Some s => truthy s | None => false end.

Definition strIsOpt (o : option string) (v : string) : bool :=
  match o with Some x => x =? v | None => false end.

Definition lowerChar (c : ascii) : ascii :=
  let n := N_of_ascii c in
  if ((65 <=? n) && (n <=? 90))%N then ascii_of_N (n + 32) else c.

Fixpoint toLowerCase (s : string) : string :=
  match s with
  | EmptyString => EmptyString
  | String c r => String (lowerChar c) (toLowerCase r)
  end.

Definition isSpace (c : ascii) : bool :=
  let n := N_of_ascii c in
  (((9 <=? n) && (n <=? 13)) || (n =? 32))%N.

Fixpoint trimStart (s : string) : string :=
  match s with
  | EmptyString => EmptyString
  | String c r => if isSpace c then trimStart r else s
  end.

Fixpoint rev (s : string) : string :=
  match s with
  | EmptyString => EmptyString
  | String c r => rev r ++ String c EmptyString
  end.

Definition trimEnd (s : string) : string := rev (trimStart (rev s)).

Definition trim (s : string) : string := trimEnd (trimStart s).

Definition isDigit (c : ascii) : bool :=
  let n := N_of_ascii c in ((48 <=? n) && (n <=? 57))%N.

Definition isHex (c : ascii) : bool :=
  let n := N_of_ascii c in
  (isDigit c || ((65 <=? n) && (n <=? 70)) || ((97 <=? n) && (n <=? 102)))%N.

(** The regular-expression class [\w]. *)
Definition isWord (c : ascii) : bool :=
  let n := N_of_ascii c in
  (isDigit c || ((65 <=? n) && (n <=? 90)) || ((97 <=? n) && (n <=? 122))
   || (n =? 95))%N.

Fixpoint all (p : ascii -> bool) (s : string) : bool :=
  match s with
  | EmptyString => true
  | String c r => p c && all p r
  end.

(** Longest prefix of characters satisfying [p], and the rest. *)
Fixpoint span (p : ascii -> bool) (s : string) : string * string :=
  match s with
  | EmptyString => (EmptyString, EmptyString)
  | String c r =>
      if p c then let (a, b) := span p r in (String c a, b)
      else (EmptyString, s)
  end.

(** [stripPrefix p s] is the rest of [s] after the literal [p], if [s]
    starts with it. *)
Fixpoint stripPrefix (p s : string) : option string :=
  match p, s with
  | EmptyString, _ => Some s
  | String a p', String b s' =>
      if Ascii.eqb a b then stripPrefix p' s' else None
  | String _ _, EmptyString => None
  end.

Definition includes (l : list string) (x : string) : bool :=
  existsb (String.eqb x) l.

End Js.

(* ------------------------------------------------------------------ *)
(** ** The Waitlist model (Mongoose schema, instance and static methods) *)

Module Waitlist.

Definition ObjectId := N.
Bind Scope N_scope with ObjectId.

Record Entry := mkEntry {
  _id : ObjectId;
  name : string;
  email : string;
  walletAddress : option string;
  roles : list string;
  note : option string;
  xHandle : option string;
  emailVerified : bool;
  verificationToken : option string;
  posted : bool;
  postUrl : option string;
  status : string;
  createdAt : Z;
  updatedAt : Z
}.

(** The collection, in natural order. *)
Definition Store := list Entry.

(** The filter [{ field: v }] on an optional string field. *)
Definition strIs (o : option string) (v : string) : bool := Js.strIsOpt o v.

(** *** Field updates ([$set]) *)

Definition set_emailVerified (b : bool) (e : Entry) : Entry :=
  mkEntry (_id e) (name e) (email e) (walletAddress e) (roles e) (note e)
    (xHandle e) b (verificationToken e) (posted e) (postUrl e) (status e)
    (createdAt e) (updatedAt e).

Definition set_verificationToken (t : option string) (e : Entry) : Entry :=
  mkEntry (_id e) (name e) (email e) (walletAddress e) (roles e) (note e)
    (xHandle e) (emailVerified e) t (posted e) (postUrl e) (status e)
    (createdAt e) (updatedAt e).

Definition set_status (st : string) (e : Entry) : Entry :=
  mkEntry (_id e) (name e) (email e) (walletAddress e) (roles e) (note e)
    (xHandle e) (emailVerified e) (verificationToken e) (posted e)
    (postUrl e) st (createdAt e) (updatedAt e).

Definition set_posted (b : bool) (e : Entry) : Entry :=
  mkEntry (_id e) (name e) (email e) (walletAddress e) (roles e) (note e)
    (xHandle e) (emailVerified e) (verificationToken e) b (postUrl e)
    (status e) (createdAt e) (updatedAt e).

Definition set_postUrl (u : option string) (e : Entry) : Entry :=
  mkEntry (_id e) (name e) (email e) (walletAddress e) (roles e) (note e)
    (xHandle e) (emailVerified e) (verificationToken e) (posted e) u
    (status e) (createdAt e) (updatedAt e).

Definition set_updatedAt (now : Z) (e : Entry) : Entry :=
  mkEntry (_id e) (name e) (email e) (walletAddress e) (roles e) (note e)
    (xHandle e) (emailVerified e) (verificationToken e) (posted e)
    (postUrl e) (status e) (createdAt e) now.

(** *** Queries and updates of the collection *)

(** [findOne(filter)]: the first document, in natural order, that matches. *)
Definition findOne (p : Entry -> bool) (s : Store) : option Entry := find p s.

Definition countDocuments (p : Entry -> bool) (s : Store) : Z :=
  Z.of_nat (List.length (filter p s)).

(** One atomic store update: the first matching document is rewritten in
    place and returned as updated; [None] and an unchanged collection when
    nothing matches.  [updateFirst] is the driver's [updateOne];
    [findOneAndUpdate(filter, update, {new: true})] is Mongoose's, whose
    [pre('findOneAndUpdate')] hook adds [updatedAt: new Date()] to the
    update. *)
Fixpoint updateFirst (p : Entry -> bool) (upd : Entry -> Entry)
    (s : Store) : option Entry * Store :=
  match s with
  | [] => (None, [])
  | e :: r =>
      if p e then (Some (upd e), upd e :: r)
      else let (o, r') := updateFirst p upd r in (o, e :: r')
  end.

Definition findOneAndUpdate (p : Entry -> bool) (upd : Entry -> Entry)
    (now : Z) (s : Store) : option Entry * Store :=
  updateFirst p (fun e => set_updatedAt now (upd e)) s.

Definition hasId (i : ObjectId) (e : Entry) : bool := (_id e =? i)%N.

Definition findById (i : ObjectId) (s : Store) : option Entry :=
  findOne (hasId i) s.

Definition findByIdAndUpdate (i : ObjectId) (upd : Entry -> Entry)
    (now : Z) (s : Store) : option Entry * Store :=
  findOneAndUpdate (hasId i) upd now s.

(** [findByIdAndDelete]: removes the first document with that id. *)
Fixpoint findByIdAndDelete (i : ObjectId) (s : Store) : option Entry * Store :=
  match s with
  | [] => (None, [])
  | e :: r =>
      if hasId i e then (Some e, r)
      else let (o, r') := findByIdAndDelete i r in (o, e :: r')
  end.

(** [statics.findByVerificationToken] *)
Definition findByVerificationToken (token : string) (s : Store) : option Entry :=
  findOne (fun e => strIs (verificationToken e) token) s.

(** [statics.findByEmail] *)
Definition findByEmail (em : string) (s : Store) : option Entry :=
  findOne (fun e => email e =? Js.toLowerCase em) s.

(** *** [statics.getStatistics] *)

Record Statistics := mkStatistics {
  total : Z;
  verified : Z;
  pending : Z;
  approved : Z;
  rejected : Z;
  unverified : Z
}.

Definition getStatistics (s : Store) : Statistics :=
  let total := countDocuments (fun _ => true) s in
  let verified := countDocuments (fun e => Bool.eqb (emailVerified e) true) s in
  let pending := countDocuments (fun e => status e =? "pending") s in
  let approved := countDocuments (fun e => status e =? "approved") s in
  let rejected := countDocuments (fun e => status e =? "rejected") s in
  mkStatistics total verified pending approved rejected (total - verified).

(** *** Schema validation (run by [save]) *)

Definition validRoles : list string :=
  ["developer"; "community_builder"; "investor"; "content_creator";
   "early_adopter"; "other"].

Definition validStatuses : list string := ["pending"; "approved"; "rejected"].

(** A character of the class [[^\s@]]. *)
Definition emailChar (c : ascii) : bool :=
  negb (Js.isSpace c) && negb (Ascii.eqb c "@").

(** Some ["."] of the string is followed by at least one more character. *)
Fixpoint dotBeforeLast (s : string) : bool :=
  match s with
  | String c (String _ _ as r) => Ascii.eqb c "." || dotBeforeLast r
  | _ => false
  end.

(** [/^[^\s@]+@[^\s@]+\.[^\s@]+$/] *)
Definition emailRegex (s : string) : bool :=
  let (local, rest) := Js.span emailChar s in
  match local, rest with
  | String _ _, String at_ (String _ tl as domain) =>
      Ascii.eqb at_ "@" && Js.all emailChar domain && dotBeforeLast tl
  | _, _ => false
  end.

(** [/^0x[a-fA-F0-9]{40}$/] *)
Definition walletRegex (s : string) : bool :=
  match Js.stripPrefix "0x" s with
  | Some r => (String.length r =? 40)%nat && Js.all Js.isHex r
  | None => false
  end.

(** [/^[a-zA-Z0-9_]{1,15}$/] *)
Definition xHandleRegex (s : string) : bool :=
  (1 <=? String.length s)%nat && (String.length s <=? 15)%nat
  && Js.all Js.isWord s.

(** [/^https:\/\/(twitter\.com|x\.com)\/(\w+)\/status\/(\d+)/]: the three
    captured groups (domain, user name, tweet id) of a match.  The
    expression is anchored at the start only; [\w+] and [\d+] are greedy
    and what follows each of them cannot start with a character of its
    class, so each group is the longest run. *)
Definition postUrlMatch (s : string) : option (string * string * string) :=
  match Js.stripPrefix "https://" s with
  | None => None
  | Some r =>
      let afterDomain :=
        match Js.stripPrefix "twitter.com" r with
        | Some r1 => Some ("twitter.com", r1)
        | None =>
            match Js.stripPrefix "x.com" r with
            | Some r1 => Some ("x.com", r1)
            | None => None
            end
        end in
      match afterDomain with
      | None => None
      | Some (domain, r1) =>
          match Js.stripPrefix "/" r1 with
          | None => None
          | Some r2 =>
              let (username, r3) := Js.span Js.isWord r2 in
              match username, Js.stripPrefix "/status/" r3 with
              | String _ _, Some r4 =>
                  let (tweetId, _) := Js.span Js.isDigit r4 in
                  match tweetId with
                  | String _ _ => Some (domain, username, tweetId)
                  | EmptyString => None
                  end
              | _, _ => None
              end
          end
      end
  end.

(** An optional field with a custom validator that starts [if (!v) return true]. *)
Definition optValid (p : string -> bool) (o : option string) : bool :=
  match o with
  | None => true
  | Some v => negb (Js.truthy v) || p v
  end.

Definition optLength (o : option string) : nat :=
  match o with Some v => String.length v | None => 0 end.

Definition schemaValidate (e : Entry) : bool :=
  (* name: required, minlength 2, maxlength 100 *)
  Js.truthy (name e)
  && (2 <=? String.length (name e))%nat && (String.length (name e) <=? 100)%nat
  (* email: required, match *)
  && Js.truthy (email e) && emailRegex (email e)
  && optValid walletRegex (walletAddress e)
  (* roles: enum on every element, at least one *)
  && negb (Nat.eqb (List.length (roles e)) 0)
  && forallb (Js.includes validRoles) (roles e)
  && (optLength (note e) <=? 500)%nat
  && optValid xHandleRegex (xHandle e)
  && optValid (fun v => match postUrlMatch v with Some _ => true | None => false end)
       (postUrl e)
  && Js.includes validStatuses (status e).

(** *** Documents: construction and [save] *)

(** [new Waitlist({...})]: the schema setters ([trim], [lowercase]) and the
    defaults ([posted], [postUrl], time stamps) applied to the given
    fields. *)
Definition new (oid : ObjectId) (now : Z) (name_ email_ : string)
    (wallet : option string) (roles_ : list string)
    (note_ xHandle_ : option string) (emailVerified_ : bool)
    (token : option string) (status_ : string) : Entry :=
  mkEntry oid (Js.trim name_) (Js.trim (Js.toLowerCase email_)) wallet roles_
    (option_map Js.trim note_)
    (option_map (fun x => Js.toLowerCase (Js.trim x)) xHandle_)
    emailVerified_ token false None status_ now now.

Inductive SaveError :=
| ValidationError
| DuplicateKey.          (* MongoDB error code 11000 *)

Definition errorCode (err : SaveError) : option Z :=
  match err with DuplicateKey => Some 11000%Z | ValidationError => None end.

(** The unique indexes of the collection: [_id] and [email]. *)
Definition violatesUnique (e : Entry) (s : Store) : bool :=
  existsb (fun x => hasId (_id e) x || (email x =? email e)) s.

(** [doc.save()] of a new document: validation, then the insert, which the
    unique indexes may refuse. *)
Definition save (e : Entry) (s : Store) : SaveError + Store :=
  if negb (schemaValidate e) then inl ValidationError
  else if violatesUnique e s then inl DuplicateKey
  else inr (s ++ [e])%list.

(** [doc.save()] of a loaded and modified document: validation, the
    [pre('save')] hook ([updatedAt]), then the write-back by [_id]. *)
Definition saveLoaded (e : Entry) (now : Z) (s : Store) : SaveError + Store :=
  if negb (schemaValidate e) then inl ValidationError
  else inr (snd (findByIdAndUpdate (_id e) (fun _ => e) now s)).

(** *** Plain objects *)

Inductive Json :=
| JNull
| JBool (b : bool)
| JNum (z : Z)
| JStr (s : string)
| JId (i : ObjectId)
| JArr (l : list string).

Definition Object := list (string * Json).

Definition jopt (o : option string) : Json :=
  match o with Some v => JStr v | None => JNull end.

(** [toObject()] / [lean()]: every stored field, the token included (the
    version key [__v] is left out). *)
Definition toObject (e : Entry) : Object :=
  [ ("_id", JId (_id e)); ("name", JStr (name e)); ("email", JStr (email e));
    ("walletAddress", jopt (walletAddress e));
    ("roles", JArr (roles e)); ("note", jopt (note e));
    ("xHandle", jopt (xHandle e)); ("emailVerified", JBool (emailVerified e));
    ("verificationToken", jopt (verificationToken e));
    ("posted", JBool (posted e)); ("postUrl", jopt (postUrl e));
    ("status", JStr (status e)); ("createdAt", JNum (createdAt e));
    ("updatedAt", JNum (updatedAt e)) ].

Definition deleteKey (k : string) (o : Object) : Object :=
  filter (fun kv => negb (fst kv =? k)) o.

Definition getKey (k : string) (o : Object) : option Json :=
  option_map snd (find (fun kv => fst kv =? k) o).

(** [methods.toSafeObject] *)
Definition toSafeObject (e : Entry) : Object :=
  let obj := toObject e in
  deleteKey "verificationToken" obj.

(** *** [statics.getPaginated] *)

Record Pagination := mkPagination {
  page : Z;
  limit : Z;
  pg_total : Z;
  pages : option Z        (* [None]: not a finite number *)
}.

Record Page := mkPage {
  entries : list Object;
  pagination : Pagination
}.

(** [.sort({createdAt: -1})]: newest first. *)
Fixpoint insertDesc (e : Entry) (l : list Entry) : list Entry :=
  match l with
  | [] => [e]
  | x :: r => if (createdAt x <=? createdAt e)%Z then e :: l
              else x :: insertDesc e r
  end.

Definition sortDesc (l : list Entry) : list Entry :=
  fold_right insertDesc [] l.

(** [.skip(n).limit(m)]: a negative skip is refused by the server, a zero
    limit means no limit and the driver sends a negative limit as its
    absolute value. *)
Definition skipLimit (n m : Z) (l : list Entry) : option (list Entry) :=
  if (n <? 0)%Z then None
  else
    let l' := skipn (Z.to_nat n) l in
    Some (if (m =? 0)%Z then l' else firstn (Z.to_nat (Z.abs m)) l').

(** [Math.ceil(total / limit)] *)
Definition ceilDiv (a b : Z) : option Z :=
  if (b =? 0)%Z then None else Some (- ((- a) / b))%Z.

Section Paginated.

(** [{ $regex: pattern, $options: 'i' }], evaluated by the database. *)
Variable regexTestI : string -> string -> bool.

Definition query (status_ search : string) (emailVerified_ : option bool)
    (e : Entry) : bool :=
  (if Js.truthy status_ then status e =? status_ else true)
  && match emailVerified_ with
     | Some b => Bool.eqb (emailVerified e) b
     | None => true
     end
  && (if Js.truthy search
      then regexTestI search (name e) || regexTestI search (email e)
      else true).

Definition getPaginated (page_ limit_ : Z) (status_ search : string)
    (emailVerified_ : option bool) (s : Store) : option Page :=
  let q := query status_ search emailVerified_ in
  let total_ := countDocuments q s in
  match skipLimit ((page_ - 1) * limit_) limit_ (sortDesc (filter q s)) with
  | None => None
  | Some found =>
      Some (mkPage (map toObject found)
              (mkPagination page_ limit_ total_ (ceilDiv total_ limit_)))
  end.

End Paginated.

End Waitlist.

(* ------------------------------------------------------------------ *)
(** ** HTTP responses and handler outcomes *)

Module Http.

Import Waitlist.

Inductive Payload :=
| NoData
| Created (id : ObjectId)                         (* [id] *)
| AlreadyVerified                                 (* [alreadyVerified: true] *)
| Verified (email_ : string) (userId : ObjectId)  (* [email], [userId] *)
| Listing (result : Page)                         (* [...result] *)
| Stats (stats : Statistics).                     (* [stats] *)

Record Response := mkResponse {
  statusCode : Z;
  success : bool;
  message : string;
  payload : Payload
}.

(** A message handed to the e-mail service:
    [sendVerificationEmail(email, verificationToken, name)]. *)
Record Mail := mkMail {
  mailTo : string;
  mailToken : string;
  mailName : string
}.

Record Outcome := mkOutcome {
  response : Response;
  store : Store;
  mails : list Mail
}.

(** [res.status(c).json({success, message})] with the collection untouched. *)
Definition reply (c : Z) (ok : bool) (msg : string) (s : Store) : Outcome :=
  mkOutcome (mkResponse c ok msg NoData) s [].

End Http.

(* ------------------------------------------------------------------ *)
(** ** The waitlist service *)

Module WaitlistService.

Import Waitlist.

(** The fields of a submission ([req.body]). *)
Record Data := mkData {
  d_name : string;
  d_email : string;
  d_walletAddress : option string;
  d_roles : list string;
  d_note : option string;
  d_xHandle : option string
}.

Record CreateResult := mkCreateResult {
  id : ObjectId;
  r_verificationToken : string;
  r_email : string
}.

(** [v && v.trim() ? f(v.trim()) : null] *)
Definition trimmedOrNull (f : string -> string) (o : option string) : option string :=
  match o with
  | Some v => if Js.truthy v && Js.truthy (Js.trim v) then Some (f (Js.trim v)) else None
  | None => None
  end.

(** [v || null] *)
Definition orNull (o : option string) : option string :=
  match o with
  | Some v => if Js.truthy v then Some v else None
  | None => None
  end.

(** [createEntry]; [oid] is the identifier of the new document and
    [verificationToken] the value of [crypto.randomBytes(32).toString('hex')]. *)
Definition newEntry (oid : ObjectId) (verificationToken_ : string) (now : Z)
    (data : Data) : Entry :=
  Waitlist.new oid now (d_name data) (Js.toLowerCase (d_email data))
    (orNull (d_walletAddress data)) (d_roles data)
    (trimmedOrNull (fun v => v) (d_note data))
    (trimmedOrNull Js.toLowerCase (d_xHandle data))
    false (Some verificationToken_) "pending".

Definition createEntry (oid : ObjectId) (verificationToken_ : string) (now : Z)
    (data : Data) (s : Store) : SaveError + (CreateResult * Store) :=
  let entry := newEntry oid verificationToken_ now data in
  match save entry s with
  | inl err => inl err
  | inr s' => inr (mkCreateResult (_id entry) verificationToken_ (email entry), s')
  end.

Definition findByVerificationToken (token : string) (s : Store) : option Entry :=
  Waitlist.findByVerificationToken token s.

(** The update document of [verifyEmail]. *)
Definition markVerified (e : Entry) : Entry :=
  set_verificationToken None (set_status "approved" (set_emailVerified true e)).

Definition verifyEmail (token : string) (now : Z) (s : Store)
    : option Entry * Store :=
  findOneAndUpdate (fun e => strIs (verificationToken e) token) markVerified now s.

Definition getStatistics (s : Store) : Statistics :=
  Waitlist.getStatistics s.

Definition findByPostUrl (postUrl_ : string) (s : Store) : option Entry :=
  findOne (fun e => strIs (postUrl e) postUrl_) s.

Definition findByEmail (email_ : string) (s : Store) : option Entry :=
  findOne (fun e => email e =? Js.toLowerCase email_) s.

(** An identifier argument is either the string of a request or the
    [_id] of a loaded document. *)
Inductive IdArg :=
| IdStr (s : string)
| IdObj (i : ObjectId).

Section Casting.

(** Mongoose's cast of a string to an [ObjectId]; [None] is the
    [CastError] it throws. *)
Variable castObjectId : string -> option ObjectId.

Definition castId (a : IdArg) : option ObjectId :=
  match a with
  | IdStr str => castObjectId str
  | IdObj i => Some i
  end.

(** In the functions below the outer [None] is a thrown [CastError]. *)

Definition findById (a : IdArg) (s : Store) : option (option Entry) :=
  match castId a with
  | Some i => Some (Waitlist.findById i s)
  | None => None
  end.

Definition updateStatus (a : IdArg) (status_ : string) (now : Z) (s : Store)
    : option (option Entry * Store) :=
  match castId a with
  | Some i => Some (findByIdAndUpdate i (set_status status_) now s)
  | None => None
  end.

Definition deleteEntry (a : IdArg) (s : Store) : option (option Entry * Store) :=
  match castId a with
  | Some i => Some (findByIdAndDelete i s)
  | None => None
  end.

Definition updatePostStatus (a : IdArg) (postUrl_ : string) (now : Z)
    (s : Store) : option (option Entry * Store) :=
  match castId a with
  | Some i =>
      Some (findByIdAndUpdate i
              (fun e => set_postUrl (Some postUrl_) (set_posted true e)) now s)
  | None => None
  end.

End Casting.

Section Listing.

Variable regexTestI : string -> string -> bool.

Definition getEntries (page_ limit_ : Z) (status_ search : string)
    (s : Store) : option Page :=
  getPaginated regexTestI page_ limit_ status_ search None s.

End Listing.

End WaitlistService.

(* ------------------------------------------------------------------ *)
(** ** Middleware *)

Module Validation.

Import Waitlist WaitlistService.

Definition EMAIL_REGEX : string -> bool := emailRegex.

Fixpoint join (sep : string) (l : list string) : string :=
  match l with
  | [] => ""
  | [x] => x
  | x :: r => x ++ sep ++ join sep r
  end.

(** The result of a middleware: [None] is [next()], otherwise the status
    code and message of the rejection. *)
Definition Verdict := option (Z * string).

Section Submission.

(** [ethers.isAddress] *)
Variable isAddress : string -> bool.

Definition validateWaitlistSubmission (body : Data) : Verdict :=
  if negb (Js.truthy (d_name body)) || negb (Js.truthy (d_email body))
     || Nat.eqb (List.length (d_roles body)) 0
  then Some (400%Z, "Missing required fields: name, email, and roles are required")
  else if Js.truthyOpt (d_note body) && (500 <? optLength (d_note body))%nat
  then Some (400%Z, "Note cannot exceed 500 characters")
  else if negb (EMAIL_REGEX (d_email body))
  then Some (400%Z, "Invalid email address format")
  else if match d_walletAddress body with
          | Some w => Js.truthy w && negb (isAddress w)
          | None => false
          end
  then Some (400%Z, "Invalid wallet address format")
  else
    let invalidRoles :=
      filter (fun role => negb (Js.includes validRoles role)) (d_roles body) in
    if (0 <? List.length invalidRoles)%nat
    then Some (400%Z, "Invalid roles: " ++ join ", " invalidRoles)
    else None.

End Submission.

Definition validateStatusUpdate (status_ : string) : Verdict :=
  let validStatuses_ := ["pending"; "approved"; "rejected"] in
  if negb (Js.truthy status_) then Some (400%Z, "Status is required")
  else if negb (Js.includes validStatuses_ status_)
  then Some (400%Z, "Invalid status. Must be one of: " ++ join ", " validStatuses_)
  else None.

End Validation.

Module Auth.

Inductive Result :=
| Next (adminWallet : string)          (* [req.adminWallet], then [next()] *)
| Reject (code : Z) (msg : string).

Section Signature.

(** [ethers.verifyMessage(message, signature)]: the address recovered
    from the signature; [None] when it throws. *)
Variable verifyMessage : string -> string -> option string.

(** [process.env.ADMIN_WALLET_ADDRESS] *)
Variable ADMIN_WALLET_ADDRESS : option string.

Definition verifyWalletSignature (walletAddress signature message_ : string)
    : Result :=
  if negb (Js.truthy walletAddress) || negb (Js.truthy signature)
     || negb (Js.truthy message_)
  then Reject 401 "Missing authentication credentials"
  else
    match verifyMessage message_ signature with
    | None => Reject 401 "Authentication failed"
    | Some recoveredAddress =>
        if negb (Js.toLowerCase recoveredAddress =? Js.toLowerCase walletAddress)
        then Reject 401 "Invalid signature"
        else
          let adminWallet := option_map Js.toLowerCase ADMIN_WALLET_ADDRESS in
          if negb (Js.truthyOpt adminWallet)
          then Reject 500 "Admin wallet not configured"
          else if negb (Js.strIsOpt adminWallet (Js.toLowerCase walletAddress))
          then Reject 403 "Unauthorized: Admin access required"
          else Next (Js.toLowerCase walletAddress)
    end.

End Signature.

End Auth.

(* ------------------------------------------------------------------ *)
(** ** Controllers *)

Module WaitlistController.

Import Waitlist Http WaitlistService.

Definition submit (oid : ObjectId) (rnd : string) (now : Z) (body : Data)
    (s : Store) : Outcome :=
  match createEntry oid rnd now body s with
  | inr (result, s') =>
      mkOutcome
        (mkResponse 201 true
           "Successfully joined the waitlist. Please check your email to verify your address."
           (Created (id result)))
        s'
        [mkMail (r_email result) (r_verificationToken result) (d_name body)]
  | inl err =>
      match errorCode err with
      | Some 11000%Z => reply 409 false "This email is already on the waitlist" s
      | _ => reply 500 false "Failed to join waitlist. Please try again." s
      end
  end.

Definition verifyEmail (token : string) (now : Z) (s : Store) : Outcome :=
  if negb (Js.truthy token)
  then reply 400 false "Verification token is required" s
  else
    match findByVerificationToken token s with
    | None => reply 404 false "Invalid or expired verification token" s
    | Some entry =>
        if emailVerified entry
        then mkOutcome (mkResponse 200 true "Email already verified" AlreadyVerified) s []
        else
          let (_, s') := WaitlistService.verifyEmail token now s in
          mkOutcome
            (mkResponse 200 true
               "Email verified successfully! Welcome to the HASHD waitlist."
               (Verified (email entry) (_id entry)))
            s' []
    end.

Definition sanitize (groups : string * string * string) : string :=
  let '(domain, username, tweetId) := groups in
  "https://" ++ domain ++ "/" ++ username ++ "/status/" ++ tweetId.

Section SavePost.

Variable castObjectId : string -> option ObjectId.

(** [ObjectId.prototype.toString] *)
Variable oidToString : ObjectId -> string.

Definition savePost (userId postUrl_ : string) (now : Z) (s : Store) : Outcome :=
  if negb (Js.truthy userId) || negb (Js.truthy postUrl_)
  then reply 400 false "User ID and post URL are required" s
  else
    match postUrlMatch postUrl_ with
    | None => reply 400 false "Invalid X post URL format" s
    | Some groups =>
        let sanitizedPostUrl := sanitize groups in
        match findById castObjectId (IdStr userId) s with
        | None => reply 500 false "Failed to save post URL. Please try again." s
        | Some None => reply 404 false "Waitlist entry not found" s
        | Some (Some entry) =>
            if negb (emailVerified entry)
            then reply 400 false "Please verify your email first" s
            else
              let usedByAnother :=
                match findByPostUrl sanitizedPostUrl s with
                | Some existingPost =>
                    negb (oidToString (_id existingPost) =? userId)
                | None => false
                end in
              if usedByAnother
              then reply 400 false
                     "This post has already been used by another user. Please create a new post." s
              else
                match updatePostStatus castObjectId (IdObj (_id entry))
                        sanitizedPostUrl now s with
                | None => reply 500 false "Failed to save post URL. Please try again." s
                | Some (_, s') =>
                    mkOutcome
                      (mkResponse 200 true
                         "Post URL saved successfully! We will verify it automatically nearer to launch."
                         NoData)
                      s' []
                end
        end
    end.

End SavePost.

Definition verifyPost (s : Store) : Outcome :=
  reply 410 false
    "Post verification is now handled automatically. Please use the save-post endpoint instead." s.

End WaitlistController.

Module AdminController.

Import Waitlist Http WaitlistService.

Section Listing.

Variable regexTestI : string -> string -> bool.

(** [page] and [limit] are the values of [parseInt]. *)
Definition getEntries (page_ limit_ : Z) (status_ search : string)
    (s : Store) : Outcome :=
  match WaitlistService.getEntries regexTestI page_ limit_ status_ search s with
  | Some result => mkOutcome (mkResponse 200 true "" (Listing result)) s []
  | None => reply 500 false "Failed to fetch waitlist entries" s
  end.

End Listing.

Definition getStatistics (s : Store) : Outcome :=
  let stats := WaitlistService.getStatistics s in
  mkOutcome (mkResponse 200 true "" (Stats stats)) s [].

Section ById.

Variable castObjectId : string -> option ObjectId.

Definition updateStatus (id_ status_ : string) (now : Z) (s : Store) : Outcome :=
  match findById castObjectId (IdStr id_) s with
  | None => reply 500 false "Failed to update status" s
  | Some None => reply 404 false "Waitlist entry not found" s
  | Some (Some entry) =>
      match WaitlistService.updateStatus castObjectId (IdStr id_) status_ now s with
      | None => reply 500 false "Failed to update status" s
      | Some (None, s') => reply 400 false "Failed to update status" s'
      | Some (Some _, s') => reply 200 true "Status updated successfully" s'
      end
  end.

Definition deleteEntry (id_ : string) (s : Store) : Outcome :=
  match findById castObjectId (IdStr id_) s with
  | None => reply 500 false "Failed to delete entry" s
  | Some None => reply 404 false "Waitlist entry not found" s
  | Some (Some entry) =>
      match WaitlistService.deleteEntry castObjectId (IdStr id_) s with
      | None => reply 500 false "Failed to delete entry" s
      | Some (None, s') => reply 400 false "Failed to delete entry" s'
      | Some (Some _, s') => reply 200 true "Entry deleted successfully" s'
      end
  end.

(** [rnd] is the value [crypto.randomBytes(32).toString('hex')] would
    return and [mailOk] tells whether the e-mail service accepts the
    message (it throws otherwise). *)
Definition resendVerification (id_ : string) (rnd : string) (mailOk : bool)
    (now : Z) (s : Store) : Outcome :=
  match findById castObjectId (IdStr id_) s with
  | None => reply 500 false "Failed to send verification email" s
  | Some None => reply 404 false "Waitlist entry not found" s
  | Some (Some entry) =>
      if emailVerified entry
      then reply 400 false "Email is already verified" s
      else
        let send (verificationToken_ : string) (s' : Store) : Outcome :=
          let mail := mkMail (email entry) verificationToken_ (name entry) in
          if mailOk
          then mkOutcome
                 (mkResponse 200 true "Verification email sent successfully" NoData)
                 s' [mail]
          else mkOutcome
                 (mkResponse 500 false "Failed to send verification email" NoData)
                 s' [mail] in
        let fresh : Outcome :=
          match saveLoaded (set_verificationToken (Some rnd) entry) now s with
          | inl _ => reply 500 false "Failed to send verification email" s
          | inr s' => send rnd s'
          end in
        match verificationToken entry with
        | Some verificationToken_ =>
            if Js.truthy verificationToken_ then send verificationToken_ s
            else fresh
        | None => fresh
        end
  end.

End ById.

End AdminController.

(* ------------------------------------------------------------------ *)
(** ** The standalone server (routes written against the MongoDB driver) *)

Module LegacyServer.

Import Waitlist Http.

Section Routes.

(** [new ObjectId(id)]; [None] when it throws. *)
Variable newObjectId : string -> option ObjectId.

(** [POST /api/admin/waitlist/:id/resend-verification], after the
    signature check. *)
Definition resendVerification (id_ : string) (rnd : string) (mailOk : bool)
    (now : Z) (s : Store) : Outcome :=
  match newObjectId id_ with
  | None => reply 500 false "Failed to resend verification email" s
  | Some i =>
      match findOne (hasId i) s with
      | None => reply 404 false "Entry not found" s
      | Some entry =>
          if emailVerified entry
          then reply 400 false "Email already verified" s
          else
            let verificationToken_ := rnd in
            let (_, s') :=
              updateFirst (hasId (_id entry))
                (fun e => set_updatedAt now
                            (set_verificationToken (Some verificationToken_) e)) s in
            let mail := mkMail (email entry) verificationToken_ (name entry) in
            if mailOk
            then mkOutcome
                   (mkResponse 200 true "Verification email resent successfully" NoData)
                   s' [mail]
            else mkOutcome
                   (mkResponse 500 false "Failed to send verification email" NoData)
                   s' [mail]
      end
  end.

End Routes.

(** [GET /api/verify-email/:token] *)
Definition verifyEmail (token : string) (now : Z) (s : Store) : Outcome :=
  match findOne (fun e => strIs (verificationToken e) token) s with
  | None => reply 404 false "Invalid or expired verification token" s
  | Some entry =>
      if emailVerified entry
      then mkOutcome (mkResponse 200 true "Email already verified" AlreadyVerified) s []
      else
        let (_, s') :=
          updateFirst (hasId (_id entry))
            (fun e => set_verificationToken None
                        (set_updatedAt now
                           (set_status "approved" (set_emailVerified true e)))) s in
        mkOutcome (mkResponse 200 true "Email verified successfully!" NoData) s' []
  end.

End LegacyServer.

(* ------------------------------------------------------------------ *)
(** ** The routes of the application *)

Module Api.

Import Waitlist Http WaitlistService.

(** The admin routes, all behind [verifyWalletSignature].  The CSV export
    only reads the collection and is left out. *)
Inductive AdminOp :=
| GetEntries (page_ limit_ : Z) (status_ search : string)
| UpdateStatus (id_ status_ : string)
| DeleteEntry (id_ : string)
| ResendVerification (id_ rnd : string) (mailOk : bool)
| GetStatistics.

Inductive Request :=
| PostWaitlist (oid : ObjectId) (rnd : string) (body : Data)
| GetVerifyEmail (token : string)
| PostSavePost (userId postUrl_ : string)
| PostVerifyPost
| Admin (walletAddress signature message_ : string) (op : AdminOp).

(** The random token a request brings into the system, if any. *)
Definition tokenOf (r : Request) : option string :=
  match r with
  | PostWaitlist _ rnd _ => Some rnd
  | Admin _ _ _ (ResendVerification _ rnd _) => Some rnd
  | _ => None
  end.

Section App.

Variable verifyMessage : string -> string -> option string.
Variable ADMIN_WALLET_ADDRESS : option string.
Variable castObjectId : string -> option ObjectId.
Variable oidToString : ObjectId -> string.
Variable isAddress : string -> bool.
Variable regexTestI : string -> string -> bool.

Definition refuse (v : Z * string) (s : Store) : Outcome :=
  reply (fst v) false (snd v) s.

Definition adminRoute (op : AdminOp) (now : Z) (s : Store) : Outcome :=
  match op with
  | GetEntries page_ limit_ status_ search =>
      AdminController.getEntries regexTestI page_ limit_ status_ search s
  | UpdateStatus id_ status_ =>
      match Validation.validateStatusUpdate status_ with
      | Some v => refuse v s
      | None => AdminController.updateStatus castObjectId id_ status_ now s
      end
  | DeleteEntry id_ => AdminController.deleteEntry castObjectId id_ s
  | ResendVerification id_ rnd mailOk =>
      AdminController.resendVerification castObjectId id_ rnd mailOk now s
  | GetStatistics => AdminController.getStatistics s
  end.

Definition handle (now : Z) (r : Request) (s : Store) : Outcome :=
  match r with
  | PostWaitlist oid rnd body =>
      match Validation.validateWaitlistSubmission isAddress body with
      | Some v => refuse v s
      | None => WaitlistController.submit oid rnd now body s
      end
  | GetVerifyEmail token => WaitlistController.verifyEmail token now s
  | PostSavePost userId postUrl_ =>
      WaitlistController.savePost castObjectId oidToString userId postUrl_ now s
  | PostVerifyPost => WaitlistController.verifyPost s
  | Admin walletAddress signature message_ op =>
      match Auth.verifyWalletSignature verifyMessage ADMIN_WALLET_ADDRESS
              walletAddress signature message_ with
      | Auth.Reject code msg => reply code false msg s
      | Auth.Next _ => adminRoute op now s
      end
  end.

(** The collection after a sequence of requests, each with its arrival
    time. *)
Fixpoint run (reqs : list (Z * Request)) (s : Store) : Store :=
  match reqs with
  | [] => s
  | (now, r) :: rest => run rest (store (handle now r s))
  end.

End App.

End Api.

(* ------------------------------------------------------------------ *)
(** ** Concurrent requests

    Requests are served concurrently and the store serialises single
    operations only: between two store round trips of one handler, another
    handler may run.  [savePost] is written here as the sequence of its store
    round trips. *)

Module Concurrent.

Import Waitlist Http WaitlistService.

(** A handler in progress: the next store operation with its
    continuation, or the response. *)
Inductive Proc :=
| Respond (r : Response)
| FindById (a : IdArg) (k : option (option Entry) -> Proc)
| FindByPostUrl (u : string) (k : option Entry -> Proc)
| UpdatePostStatus (a : IdArg) (u : string) (k : option (option Entry) -> Proc).

Definition answer (c : Z) (ok : bool) (msg : string) : Proc :=
  Respond (mkResponse c ok msg NoData).

Section SavePost.

Variable castObjectId : string -> option ObjectId.
Variable oidToString : ObjectId -> string.

Definition savePost (userId postUrl_ : string) : Proc :=
  if negb (Js.truthy userId) || negb (Js.truthy postUrl_)
  then answer 400 false "User ID and post URL are required"
  else
    match postUrlMatch postUrl_ with
    | None => answer 400 false "Invalid X post URL format"
    | Some groups =>
        let sanitizedPostUrl := WaitlistController.sanitize groups in
        FindById (IdStr userId) (fun found =>
          match found with
          | None => answer 500 false "Failed to save post URL. Please try again."
          | Some None => answer 404 false "Waitlist entry not found"
          | Some (Some entry) =>
              if negb (emailVerified entry)
              then answer 400 false "Please verify your email first"
              else
                FindByPostUrl sanitizedPostUrl (fun existing =>
                  let usedByAnother :=
                    match existing with
                    | Some existingPost =>
                        negb (oidToString (_id existingPost) =? userId)
                    | None => false
                    end in
                  if usedByAnother
                  then answer 400 false
                         "This post has already been used by another user. Please create a new post."
                  else
                    UpdatePostStatus (IdObj (_id entry)) sanitizedPostUrl
                      (fun updated =>
                         match updated with
                         | None =>
                             answer 500 false
                               "Failed to save post URL. Please try again."
                         | Some _ =>
                             answer 200 true
                               "Post URL saved successfully! We will verify it automatically nearer to launch."
                         end))
          end)
    end.

(** One store round trip of a handler. *)
Definition step (now : Z) (p : Proc) (s : Store) : Proc * Store :=
  match p with
  | Respond _ => (p, s)
  | FindById a k => (k (findById castObjectId a s), s)
  | FindByPostUrl u k => (k (findByPostUrl u s), s)
  | UpdatePostStatus a u k =>
      match updatePostStatus castObjectId a u now s with
      | None => (k None, s)
      | Some (o, s') => (k (Some o), s')
      end
  end.

(** A handler running alone until it responds. *)
Fixpoint complete (now : Z) (p : Proc) (s : Store) : Response * Store :=
  match p with
  | Respond r => (r, s)
  | FindById a k => complete now (k (findById castObjectId a s)) s
  | FindByPostUrl u k => complete now (k (findByPostUrl u s)) s
  | UpdatePostStatus a u k =>
      match updatePostStatus castObjectId a u now s with
      | None => complete now (k None) s
      | Some (o, s') => complete now (k (Some o)) s'
      end
  end.

(** Two handlers under a schedule: [true] lets the first one make its
    next round trip, [false] the second. *)
Fixpoint interleave (schedule : list bool) (now : Z) (p q : Proc) (s : Store)
    : Proc * Proc * Store :=
  match schedule with
  | [] => (p, q, s)
  | true :: rest =>
      let (p', s') := step now p s in interleave rest now p' q s'
  | false :: rest =>
      let (q', s') := step now q s in interleave rest now p q' s'
  end.

End SavePost.

End Concurrent.

(* ------------------------------------------------------------------ *)
(** ** Sample data (the fixtures of the test suite) *)

Module Fixtures.

Import Waitlist WaitlistService.

Definition validWaitlistEntry : Data :=
  mkData "John Doe" "john.doe@example.com"
    (Some "0x70997970C51812dc3A010C7d01b50e0d17dc79C8")
    ["developer"; "early_adopter"]
    (Some "Excited to contribute to the project!") None.

Definition validWaitlistEntry2 : Data :=
  mkData "Jane Smith" "jane.smith@example.com" None ["investor"] None None.

(** John, as stored by a submission at time 1000 with token
    ["valid-token-123"]. *)
Definition john : Entry :=
  mkEntry 1 "John Doe" "john.doe@example.com"
    (Some "0x70997970C51812dc3A010C7d01b50e0d17dc79C8")
    ["developer"; "early_adopter"]
    (Some "Excited to contribute to the project!") None
    false (Some "valid-token-123") false None "pending" 1000 1000.

(** Jane, verified, with a recorded post. *)
Definition jane : Entry :=
  mkEntry 2 "Jane Smith" "jane.smith@example.com" None ["investor"] None None
    true None true (Some "https://x.com/jane/status/42") "approved" 1100 1300.

(** Bob, verified, without a post. *)
Definition bob : Entry :=
  mkEntry 3 "Bob Johnson" "bob.johnson@example.com"
    (Some "0x3C44CdDdB6a900fa2b585dd299e03d12FA4293BC")
    ["community_builder"; "other"]
    (Some "Looking forward to building the community") None
    true None false None "approved" 1200 1400.

(** Carol, verified, without a post. *)
Definition carol : Entry :=
  mkEntry 4 "Carol White" "carol.white@example.com" None ["content_creator"]
    None (Some "carol_w") true None false None "approved" 1250 1450.

(** An instance of the identifier conversions: identifiers are written
    in hexadecimal. *)
Definition castObjectId (str : string) : option ObjectId :=
  match Js.stripPrefix "0x" str with
  | Some digits =>
      if Js.truthy digits && Js.all Js.isHex digits
      then Some (HexString.to_N str) else None
  | None => None
  end.

Definition oidToString (i : ObjectId) : string := HexString.of_N i.

(** An instance of signature recovery: the signature names its signer. *)
Definition verifyMessage (message_ signature : string) : option string :=
  Js.stripPrefix ("signed:" ++ message_ ++ ":") signature.

Definition adminAddress : string := "0xf39Fd6e51aad88F6F4ce6aB8827279cffFb92266".

(** An instance of [ethers.isAddress]: the shape check only. *)
Definition isAddress : string -> bool := walletRegex.

(** An instance of the database's pattern match: case-insensitive search
    for the pattern as a literal. *)
Fixpoint contains (pat str : string) : bool :=
  match Js.stripPrefix pat str with
  | Some _ => true
  | None =>
      match str with
      | EmptyString => false
      | String _ rest => contains pat rest
      end
  end.

Definition regexTestI (pat str : string) : bool :=
  contains (Js.toLowerCase pat) (Js.toLowerCase str).

Definition run : list (Z * Api.Request) -> Store -> Store :=
  Api.run verifyMessage (Some adminAddress) castObjectId oidToString
    isAddress regexTestI.

(** A signature of the administrator on the message ["Admin authentication"]. *)
Definition adminSignature : string :=
  "signed:Admin authentication:0xf39Fd6e51aad88F6F4ce6aB8827279cffFb92266".

Definition asAdmin (op : Api.AdminOp) : Api.Request :=
  Api.Admin adminAddress adminSignature "Admin authentication" op.

End Fixtures.

(* ------------------------------------------------------------------ *)
(** ** The CSV export of the admin controller *)

Module CsvExport.

Import Waitlist.

(** [getAllEntries]: [find({}).sort({createdAt: -1}).lean()]. *)
Definition getAllEntries (s : Store) : list Entry := sortDesc s.

(** [Array.prototype.join] *)
Fixpoint join (sep : string) (l : list string) : string :=
  match l with
  | [] => ""
  | [x] => x
  | x :: r => x ++ sep ++ join sep r
  end.

Definition boolString (b : bool) : string := if b then "true" else "false".

(** [v || ''] on an optional string. *)
Definition orEmpty (o : option string) : string :=
  match o with Some v => v | None => "" end.

(** [`"${cell}"`]: the cell between two double quotes (character 34). *)
Definition quoted (cell : string) : string :=
  String "034" "" ++ cell ++ String "034" "".

Definition csvHeader : string :=
  "Name,Email,Wallet Address,Roles,Status,Email Verified,Created At" ++ String "010" "".

Section Dates.

(** [Date.prototype.toISOString] *)
Variable toISOString : Z -> string.

(** One row: the seven fields, each between double quotes, nothing
    escaped. *)
Definition csvRow (entry : Entry) : string :=
  let roles_ := join ";" (roles entry) in
  let createdAt_ := toISOString (createdAt entry) in
  quoted (name entry) ++ "," ++ quoted (email entry) ++ ","
  ++ quoted (orEmpty (walletAddress entry)) ++ "," ++ quoted roles_ ++ ","
  ++ quoted (status entry) ++ "," ++ quoted (boolString (emailVerified entry))
  ++ "," ++ quoted createdAt_.

(** The body of [exportCSV] (sent with status 200 and content type
    [text/csv]). *)
Definition exportCSV (s : Store) : string :=
  let entries_ := getAllEntries s in
  let csvRows := join (String "010" "") (map csvRow entries_) in
  csvHeader ++ csvRows.

End Dates.

End CsvExport.

(* ------------------------------------------------------------------ *)
(** ** The other routes of the standalone server *)

Module StandaloneServer.

Import Waitlist Http WaitlistService.

(** [$group: { _id: key, count: { $sum: 1 } }]: one bucket per distinct key,
    in the order of first occurrence. *)
Fixpoint bump (k : string) (g : list (string * Z)) : list (string * Z) :=
  match g with
  | [] => [(k, 1%Z)]
  | (k', n) :: r => if k' =? k then (k', (n + 1)%Z) :: r else (k', n) :: bump k r
  end.

Definition groupCount (keys : list string) : list (string * Z) :=
  fold_left (fun g k => bump k g) keys [].

(** [$sort: { count: -1 }] *)
Fixpoint insertByCount (b : string * Z) (l : list (string * Z)) : list (string * Z) :=
  match l with
  | [] => [b]
  | x :: r => if (snd x <=? snd b)%Z then b :: l else x :: insertByCount b r
  end.

Definition sortByCount (l : list (string * Z)) : list (string * Z) :=
  fold_right insertByCount [] l.

(** [$unwind: '$roles'] followed by the grouping on the role. *)
Definition roleStats (s : Store) : list (string * Z) :=
  sortByCount (groupCount (flat_map roles s)).

(** The grouping on [$status]. *)
Definition statusStats (s : Store) : list (string * Z) :=
  groupCount (map status s).

(** [list.reduce((acc, b) => ({...acc, [b._id]: b.count}), {})]: the object
    with one key per bucket, a later bucket replacing an earlier one of the
    same key. *)
Fixpoint setKey (k : string) (v : Z) (o : list (string * Z)) : list (string * Z) :=
  match o with
  | [] => [(k, v)]
  | (k', v') :: r => if k' =? k then (k', v) :: r else (k', v') :: setKey k v r
  end.

Definition toCounts (buckets : list (string * Z)) : list (string * Z) :=
  fold_left (fun acc b => setKey (fst b) (snd b) acc) buckets [].

Record ListingData := mkListingData {
  l_entries : list Object;
  l_pagination : Pagination;
  byStatus : list (string * Z);
  byRole : list (string * Z);
  l_total : Z
}.

Section Routes.

Variable verifyMessage : string -> string -> option string.

(** [process.env.ADMIN_WALLET_ADDRESS?.toLowerCase()], read once at start. *)
Variable ADMIN_WALLET_ADDRESS : option string.

Definition ADMIN_WALLET : option string :=
  option_map Js.toLowerCase ADMIN_WALLET_ADDRESS.

(** The signature check of the standalone server. *)
Definition verifyWalletSignature (walletAddress signature message_ : string)
    : Auth.Result :=
  if negb (Js.truthy walletAddress) || negb (Js.truthy signature)
     || negb (Js.truthy message_)
  then Auth.Reject 401 "Missing authentication credentials"
  else
    match verifyMessage message_ signature with
    | None => Auth.Reject 401 "Authentication failed"
    | Some recoveredAddress =>
        if negb (Js.toLowerCase recoveredAddress =? Js.toLowerCase walletAddress)
        then Auth.Reject 401 "Invalid signature"
        else if negb (Js.strIsOpt ADMIN_WALLET (Js.toLowerCase recoveredAddress))
        then Auth.Reject 403 "Unauthorized: Admin access only"
        else Auth.Next (Js.toLowerCase recoveredAddress)
    end.

Variable isAddress : string -> bool.

(** The document the submission route inserts: no setter, no default, no
    validation of the schema applies here. *)
Definition document (oid : ObjectId) (verificationToken_ : string) (now : Z)
    (body : Data) : Entry :=
  mkEntry oid (d_name body) (Js.toLowerCase (d_email body))
    (orNull (d_walletAddress body)) (d_roles body)
    (trimmedOrNull (fun v => v) (d_note body))
    (trimmedOrNull Js.toLowerCase (d_xHandle body))
    false (Some verificationToken_) false None "pending" now now.

(** [POST /api/waitlist] *)
Definition submit (oid : ObjectId) (rnd : string) (now : Z) (body : Data)
    (s : Store) : Outcome :=
  if negb (Js.truthy (d_name body)) || negb (Js.truthy (d_email body))
     || Nat.eqb (List.length (d_roles body)) 0
  then reply 400 false "Missing required fields" s
  else if negb (emailRegex (d_email body))
  then reply 400 false "Invalid email address" s
  else if match d_walletAddress body with
          | Some w => Js.truthy w && negb (isAddress w)
          | None => false
          end
  then reply 400 false "Invalid wallet address" s
  else
    let entry := document oid rnd now body in
    if violatesUnique entry s
    then reply 409 false "This email is already on the waitlist" s
    else
      mkOutcome
        (mkResponse 201 true
           "Successfully joined the waitlist. Please check your email to verify your address."
           (Created oid))
        (s ++ [entry])%list
        [mkMail (d_email body) rnd (d_name body)].

Variable newObjectId : string -> option ObjectId.

(** [POST /api/admin/waitlist/:id/status], after the signature check. *)
Definition updateStatus (id_ status_ : string) (now : Z) (s : Store) : Outcome :=
  if negb (Js.includes ["pending"; "approved"; "rejected"] status_)
  then reply 400 false "Invalid status" s
  else
    match newObjectId id_ with
    | None => reply 500 false "Failed to update status" s
    | Some i =>
        match updateFirst (hasId i)
                (fun e => set_updatedAt now (set_status status_ e)) s with
        | (None, s') => reply 404 false "Entry not found" s'
        | (Some _, s') => reply 200 true "Status updated successfully" s'
        end
    end.

(** [POST /api/admin/waitlist/:id/delete], after the signature check. *)
Definition deleteEntry (id_ : string) (s : Store) : Outcome :=
  match newObjectId id_ with
  | None => reply 500 false "Failed to delete entry" s
  | Some i =>
      match findByIdAndDelete i s with
      | (None, s') => reply 404 false "Entry not found" s'
      | (Some _, s') => reply 200 true "Entry deleted successfully" s'
      end
  end.

Variable regexTestI : string -> string -> bool.

Definition query (status_ search : string) (e : Entry) : bool :=
  (if Js.truthy status_ then status e =? status_ else true)
  && (if Js.truthy search
      then regexTestI search (name e) || regexTestI search (email e)
           || match walletAddress e with
              | Some w => regexTestI search w
              | None => false
              end
      else true).

(** The data of [POST /api/admin/waitlist], after the signature check;
    [None] when the query throws (answered 500). *)
Definition listing (page_ limit_ : Z) (status_ search : string) (s : Store)
    : option ListingData :=
  let q := query status_ search in
  let total_ := countDocuments q s in
  match skipLimit ((page_ - 1) * limit_) limit_ (sortDesc (filter q s)) with
  | None => None
  | Some found =>
      Some (mkListingData (map toObject found)
              (mkPagination page_ limit_ total_ (ceilDiv total_ limit_))
              (toCounts (statusStats s)) (toCounts (roleStats s)) total_)
  end.

End Routes.

(** [POST /api/admin/waitlist/export]: the body. *)
Section Dates.

Variable toISOString : Z -> string.

Definition csvRow (e : Entry) : list string :=
  [ name e; email e;
    match walletAddress e with
    | Some w => if Js.truthy w then w else "N/A"
    | None => "N/A"
    end;
    CsvExport.join ", " (roles e); status e; toISOString (createdAt e) ].

Definition exportCSV (s : Store) : string :=
  let headers := ["Name"; "Email"; "Wallet Address"; "Roles"; "Status"; "Created At"] in
  let rows := map csvRow (sortDesc s) in
  CsvExport.join (String "010" "")
    (CsvExport.join "," headers
     :: map (fun row => CsvExport.join "," (map CsvExport.quoted row)) rows).

End Dates.

End StandaloneServer.

(* ------------------------------------------------------------------ *)
(** * Properties *)

(** ** The collection primitives *)

Module StoreFacts.

Import Waitlist.

Lemma find_app_first (p : Entry -> bool) (l1 l2 : Store) (e : Entry) :
  (forall x, In x l1 -> p x = false) ->
  p e = true ->
  find p (l1 ++ e :: l2)%list = Some e.
Proof.
  induction l1 as [|x l1 IH]; intros Hl1 He; simpl.
  - now rewrite He.
  - rewrite (Hl1 x (or_introl eq_refl)).
    apply IH; [intros y Hy; apply Hl1; now right | exact He].
Qed.

Lemma find_none (p : Entry -> bool) (s : Store) :
  (forall x, In x s -> p x = false) -> find p s = None.
Proof.
  induction s as [|x s IH]; intros H; simpl; [reflexivity|].
  rewrite (H x (or_introl eq_refl)).
  apply IH; intros y Hy; apply H; now right.
Qed.

Lemma updateFirst_app_first (p : Entry -> bool) (upd : Entry -> Entry)
    (l1 l2 : Store) (e : Entry) :
  (forall x, In x l1 -> p x = false) ->
  p e = true ->
  updateFirst p upd (l1 ++ e :: l2)%list = (Some (upd e), (l1 ++ upd e :: l2)%list).
Proof.
  induction l1 as [|x l1 IH]; intros Hl1 He; simpl.
  - now rewrite He.
  - rewrite (Hl1 x (or_introl eq_refl)).
    rewrite IH; [reflexivity | intros y Hy; apply Hl1; now right | exact He].
Qed.

Lemma updateFirst_none (p : Entry -> bool) (upd : Entry -> Entry) (s : Store) :
  find p s = None -> updateFirst p upd s = (None, s).
Proof.
  induction s as [|x s IH]; simpl; [reflexivity|].
  destruct (p x); [discriminate|].
  intros H; now rewrite (IH H).
Qed.

(** Whatever [updateFirst] leaves in the collection was there before or
    is the image of a document that was. *)
Lemma updateFirst_Forall (P : Entry -> Prop) (p : Entry -> bool)
    (upd : Entry -> Entry) (s : Store) :
  (forall e, In e s -> p e = true -> P e -> P (upd e)) ->
  Forall P s -> Forall P (snd (updateFirst p upd s)).
Proof.
  induction s as [|x s IH]; intros Hupd Hs; simpl; [constructor|].
  inversion Hs as [|? ? Hx Hs']; subst.
  destruct (p x) eqn:Hp; simpl.
  - constructor; [apply Hupd; simpl; auto | exact Hs'].
  - destruct (updateFirst p upd s) as [o r] eqn:Hu; simpl in *.
    constructor; [exact Hx|].
    apply IH; [intros e He; apply Hupd; now right | exact Hs'].
Qed.

Lemma findByIdAndDelete_Forall (P : Entry -> Prop) (i : ObjectId) (s : Store) :
  Forall P s -> Forall P (snd (findByIdAndDelete i s)).
Proof.
  induction s as [|x s IH]; intros Hs; simpl; [constructor|].
  inversion Hs as [|? ? Hx Hs']; subst.
  destruct (hasId i x); simpl; [exact Hs'|].
  destruct (findByIdAndDelete i s) as [o r]; simpl in *.
  constructor; [exact Hx | apply IH; exact Hs'].
Qed.

Lemma find_In (p : Entry -> bool) (s : Store) (e : Entry) :
  find p s = Some e -> In e s /\ p e = true.
Proof. apply find_some. Qed.

Lemma strIs_true (o : option string) (v : string) :
  strIs o v = true <-> o = Some v.
Proof.
  destruct o as [x|]; simpl; [|split; discriminate].
  rewrite String.eqb_eq; split; congruence.
Qed.

Lemma strIs_false (o : option string) (v : string) :
  strIs o v = false <-> o <> Some v.
Proof.
  rewrite <- strIs_true. destruct (strIs o v); split; congruence.
Qed.

Lemma hasId_true (i : ObjectId) (e : Entry) : hasId i e = true <-> _id e = i.
Proof. unfold hasId; apply N.eqb_eq. Qed.

Lemma hasId_false (i : ObjectId) (e : Entry) : hasId i e = false <-> _id e <> i.
Proof. unfold hasId; apply N.eqb_neq. Qed.

(** With unique identifiers, nothing before a document carries its id. *)
Lemma NoDup_ids_before (l1 l2 : Store) (e : Entry) :
  NoDup (map _id (l1 ++ e :: l2)%list) ->
  forall x, In x l1 -> hasId (_id e) x = false.
Proof.
  intros Hnd x Hx. apply hasId_false. intros Heq.
  rewrite map_app in Hnd; simpl in Hnd.
  apply NoDup_remove_2 in Hnd. apply Hnd.
  apply in_or_app; left. rewrite <- Heq. now apply in_map.
Qed.

End StoreFacts.

Import Waitlist Http WaitlistService StoreFacts.

(** ** E-mail verification *)

Lemma service_verifyEmail_first
    (token : string) (now : Z) (l1 l2 : Store) (e : Entry) :
  (forall x, In x l1 -> verificationToken x <> Some token) ->
  verificationToken e = Some token ->
  findByVerificationToken token (l1 ++ e :: l2)%list = Some e /\
  WaitlistService.verifyEmail token now (l1 ++ e :: l2)%list
    = (Some (set_updatedAt now (markVerified e)),
       (l1 ++ set_updatedAt now (markVerified e) :: l2)%list).
Proof.
  intros Hl1 He.
  assert (Hp1 : forall x, In x l1 -> strIs (verificationToken x) token = false)
    by (intros x Hx; apply strIs_false; auto).
  assert (Hpe : strIs (verificationToken e) token = true)
    by (apply strIs_true; exact He).
  split.
  - apply (find_app_first (fun x => strIs (verificationToken x) token)); assumption.
  - unfold WaitlistService.verifyEmail, findOneAndUpdate.
    apply (updateFirst_app_first
             (fun x => strIs (verificationToken x) token)
             (fun x => set_updatedAt now (markVerified x))); assumption.
Qed.

Lemma controller_verifyEmail_first
    (token : string) (now : Z) (l1 l2 : Store) (e : Entry) :
  Js.truthy token = true ->
  (forall x, In x l1 -> verificationToken x <> Some token) ->
  verificationToken e = Some token ->
  emailVerified e = false ->
  WaitlistController.verifyEmail token now (l1 ++ e :: l2)%list =
    mkOutcome
      (mkResponse 200 true
         "Email verified successfully! Welcome to the HASHD waitlist."
         (Verified (email e) (_id e)))
      (l1 ++ set_updatedAt now (markVerified e) :: l2)%list [].
Proof.
  intros Htok Hl1 He Hunv.
  destruct (service_verifyEmail_first token now l1 l2 e Hl1 He) as [Hfind Hupd].
  unfold WaitlistController.verifyEmail. rewrite Htok; simpl negb; cbv iota.
  now rewrite Hfind, Hunv, Hupd.
Qed.

(** C1. For an unverified entry holding token [token] (the first one the
    lookup by that token reaches), the verification call answers 200 and
    performs exactly one store update, which sets [emailVerified] to true and
    [status] to ["approved"], clears [verificationToken] and sets [updatedAt]
    to the current time; the rest of the collection is untouched.  The route
    of the standalone server has the same effect on the collection. *)
Theorem verifyEmail_first_success
    (token : string) (now : Z) (l1 l2 : Store) (e : Entry) :
  Js.truthy token = true ->
  (forall x, In x l1 -> verificationToken x <> Some token) ->
  verificationToken e = Some token ->
  emailVerified e = false ->
  let s := (l1 ++ e :: l2)%list in
  let e' := set_updatedAt now (markVerified e) in
  let s' := (l1 ++ e' :: l2)%list in
  (emailVerified e' = true /\ status e' = "approved"
   /\ verificationToken e' = None /\ updatedAt e' = now) /\
  WaitlistService.verifyEmail token now s = (Some e', s') /\
  WaitlistController.verifyEmail token now s =
    mkOutcome
      (mkResponse 200 true
         "Email verified successfully! Welcome to the HASHD waitlist."
         (Verified (email e) (_id e)))
      s' [] /\
  (NoDup (map _id s) ->
   LegacyServer.verifyEmail token now s =
     mkOutcome (mkResponse 200 true "Email verified successfully!" NoData) s' []).
Proof.
  intros Htok Hl1 He Hunv s e' s'.
  destruct (service_verifyEmail_first token now l1 l2 e Hl1 He) as [Hfind Hupd].
  split; [repeat split|].
  split; [exact Hupd|].
  split; [now apply controller_verifyEmail_first|].
  intros Hnd. unfold LegacyServer.verifyEmail.
  unfold findByVerificationToken, Waitlist.findByVerificationToken in Hfind.
  fold s in Hfind. rewrite Hfind, Hunv.
  rewrite (updateFirst_app_first (hasId (_id e)) _ l1 l2 e).
  - reflexivity.
  - apply (NoDup_ids_before l1 l2 e Hnd).
  - apply hasId_true; reflexivity.
Qed.

Lemma verifyEmail_first_success_witness :
  WaitlistController.verifyEmail "valid-token-123" 2000 [Fixtures.jane; Fixtures.john] =
    mkOutcome
      (mkResponse 200 true
         "Email verified successfully! Welcome to the HASHD waitlist."
         (Verified "john.doe@example.com" 1%N))
      [Fixtures.jane;
       mkEntry 1 "John Doe" "john.doe@example.com"
         (Some "0x70997970C51812dc3A010C7d01b50e0d17dc79C8")
         ["developer"; "early_adopter"]
         (Some "Excited to contribute to the project!") None
         true None false None "approved" 1000 2000]
      [].
Proof.
  assert (H1 : forall x, In x [Fixtures.jane] ->
                 verificationToken x <> Some "valid-token-123").
  { intros x [<-|[]]; discriminate. }
  exact (proj1 (proj2 (proj2
    (verifyEmail_first_success "valid-token-123" 2000 [Fixtures.jane] []
       Fixtures.john eq_refl H1 eq_refl eq_refl)))).
Defined.

(** ** What a request can do to the collection *)

Module ApiFacts.

Import Api.

(** The updates the handlers apply to a document. *)
Inductive Update : (Entry -> Entry) -> Prop :=
| UVerified now :
    Update (fun e => set_updatedAt now (markVerified e))
| UPosted now u :
    Update (fun e => set_updatedAt now (set_postUrl (Some u) (set_posted true e)))
| UStatus now st :
    Js.includes validStatuses st = true ->
    Update (fun e => set_updatedAt now (set_status st e))
| UToken now rnd :
    Update (fun e => set_updatedAt now (set_verificationToken (Some rnd) e)).

(** The random token an update writes, if any. *)
Definition writes (upd : Entry -> Entry) (rnd : string) : Prop :=
  exists now, upd = fun e => set_updatedAt now (set_verificationToken (Some rnd) e).

(** The changes a request can make: none, one update of the first document
    that matches a filter, one deletion, or the insertion of a new entry that
    the unique indexes accept.  [T] bounds the random tokens involved. *)
Inductive Change (T : string -> Prop) : Store -> Store -> Prop :=
| CSame s : Change T s s
| CUpdate p upd s :
    Update upd -> (forall rnd, writes upd rnd -> T rnd) ->
    Change T s (snd (updateFirst p upd s))
| CDelete i s : Change T s (snd (findByIdAndDelete i s))
| CInsert oid rnd now data s :
    T rnd ->
    violatesUnique (newEntry oid rnd now data) s = false ->
    Change T s (s ++ [newEntry oid rnd now data])%list.

Lemma updateFirst_const (p : Entry -> bool) (upd : Entry -> Entry) (s : Store)
    (e0 : Entry) :
  find p s = Some e0 ->
  updateFirst p (fun _ => upd e0) s = updateFirst p upd s.
Proof.
  induction s as [|x s IH]; simpl; [reflexivity|].
  destruct (p x).
  - intros H. injection H as ->. reflexivity.
  - intros H. now rewrite (IH H).
Qed.

Lemma not_writes_verified now rnd :
  ~ writes (fun e => set_updatedAt now (markVerified e)) rnd.
Proof.
  intros [now' H]. apply (f_equal (fun f => verificationToken (f Fixtures.john))) in H.
  discriminate H.
Qed.

Lemma not_writes_posted now u rnd :
  ~ writes (fun e => set_updatedAt now (set_postUrl (Some u) (set_posted true e))) rnd.
Proof.
  intros [now' H]. apply (f_equal (fun f => verificationToken (f Fixtures.jane))) in H.
  discriminate H.
Qed.

Lemma not_writes_status now st rnd :
  ~ writes (fun e => set_updatedAt now (set_status st e)) rnd.
Proof.
  intros [now' H]. apply (f_equal (fun f => verificationToken (f Fixtures.jane))) in H.
  discriminate H.
Qed.

Lemma writes_token now rnd rnd' :
  writes (fun e => set_updatedAt now (set_verificationToken (Some rnd) e)) rnd' ->
  rnd' = rnd.
Proof.
  intros [now' H]. apply (f_equal (fun f => verificationToken (f Fixtures.jane))) in H.
  simpl in H. congruence.
Qed.

Section Handlers.

Variable verifyMessage : string -> string -> option string.
Variable ADMIN_WALLET_ADDRESS : option string.
Variable castObjectId : string -> option ObjectId.
Variable oidToString : ObjectId -> string.
Variable isAddress : string -> bool.
Variable regexTestI : string -> string -> bool.

Variable T : string -> Prop.

Let handle := handle verifyMessage ADMIN_WALLET_ADDRESS castObjectId
                oidToString isAddress regexTestI.

(** The random tokens of a request are among [T]. *)
Definition brings (r : Request) : Prop :=
  forall rnd, tokenOf r = Some rnd -> T rnd.

Lemma submit_Change oid rnd now body s :
  T rnd -> Change T s (store (WaitlistController.submit oid rnd now body s)).
Proof.
  intros HT. unfold WaitlistController.submit, createEntry, save.
  destruct (negb (schemaValidate _)); simpl; [constructor|].
  destruct (violatesUnique _ s) eqn:Hu; simpl; [constructor|].
  now apply CInsert.
Qed.

Lemma verifyEmail_Change token now s :
  Change T s (store (WaitlistController.verifyEmail token now s)).
Proof.
  unfold WaitlistController.verifyEmail.
  destruct (negb (Js.truthy token)); simpl; [constructor|].
  destruct (findByVerificationToken token s) as [entry|]; simpl; [|constructor].
  destruct (emailVerified entry); simpl; [constructor|].
  unfold WaitlistService.verifyEmail, findOneAndUpdate.
  destruct (updateFirst _ _ s) as [o s'] eqn:Heq; simpl.
  change s' with (snd (o, s')). rewrite <- Heq.
  apply CUpdate; [constructor|].
  intros rnd H. now apply not_writes_verified in H.
Qed.

Lemma savePost_Change userId postUrl_ now s :
  Change T s (store (WaitlistController.savePost castObjectId oidToString
                       userId postUrl_ now s)).
Proof.
  unfold WaitlistController.savePost.
  destruct (_ || _); simpl; [constructor|].
  destruct (postUrlMatch postUrl_) as [groups|]; simpl; [|constructor].
  destruct (findById castObjectId (IdStr userId) s) as [[entry|]|];
    simpl; try constructor.
  destruct (negb (emailVerified entry)); simpl; [constructor|].
  match goal with |- context [if ?b then _ else _] => destruct b end;
    simpl; [constructor|].
  unfold findByIdAndUpdate, findOneAndUpdate.
  destruct (updateFirst _ _ s) as [o s'] eqn:Heq; simpl.
  change s' with (snd (o, s')). rewrite <- Heq.
  apply CUpdate; [constructor|].
  intros rnd H. now apply not_writes_posted in H.
Qed.

Lemma updateStatus_Change id_ status_ now s :
  Js.includes validStatuses status_ = true ->
  Change T s (store (AdminController.updateStatus castObjectId id_ status_ now s)).
Proof.
  intros Hst. unfold AdminController.updateStatus, findById, updateStatus.
  simpl castId.
  destruct (castObjectId id_) as [i|]; simpl; [|constructor].
  destruct (Waitlist.findById i s); simpl; [|constructor].
  unfold findByIdAndUpdate, findOneAndUpdate.
  assert (Hc : Change T s
                 (snd (updateFirst (hasId i)
                         (fun e => set_updatedAt now (set_status status_ e)) s))).
  { apply CUpdate; [now constructor|].
    intros rnd H. now apply not_writes_status in H. }
  destruct (updateFirst _ _ s) as [[x|] s']; simpl in *; exact Hc.
Qed.

Lemma deleteEntry_Change id_ s :
  Change T s (store (AdminController.deleteEntry castObjectId id_ s)).
Proof.
  unfold AdminController.deleteEntry, findById, deleteEntry.
  simpl castId.
  destruct (castObjectId id_) as [i|]; simpl; [|constructor].
  destruct (Waitlist.findById i s); simpl; [|constructor].
  pose proof (CDelete T i s) as Hd.
  destruct (findByIdAndDelete i s) as [[x|] s']; simpl in *; exact Hd.
Qed.

Lemma resendVerification_Change id_ rnd mailOk now s :
  T rnd ->
  Change T s (store (AdminController.resendVerification castObjectId id_ rnd
                       mailOk now s)).
Proof.
  intros HT. unfold AdminController.resendVerification, findById.
  simpl castId.
  destruct (castObjectId id_) as [i|]; simpl; [|constructor].
  destruct (Waitlist.findById i s) as [entry|] eqn:Hfind; simpl; [|constructor].
  destruct (emailVerified entry); simpl; [constructor|].
  assert (Hid : _id entry = i).
  { apply find_In in Hfind. now apply hasId_true. }
  assert (Hfresh :
    Change T s (store
      match saveLoaded (set_verificationToken (Some rnd) entry) now s with
      | inl _ => reply 500 false "Failed to send verification email" s
      | inr s' =>
          if mailOk
          then mkOutcome
                 (mkResponse 200 true "Verification email sent successfully" NoData)
                 s' [mkMail (email entry) rnd (name entry)]
          else mkOutcome
                 (mkResponse 500 false "Failed to send verification email" NoData)
                 s' [mkMail (email entry) rnd (name entry)]
      end)).
  { unfold saveLoaded.
    destruct (negb (schemaValidate _)); simpl; [constructor|].
    assert (Hc : Change T s
                   (snd (findByIdAndUpdate
                           (_id (set_verificationToken (Some rnd) entry))
                           (fun _ => set_verificationToken (Some rnd) entry) now s))).
    { unfold findByIdAndUpdate, findOneAndUpdate. simpl _id. rewrite Hid.
      rewrite (updateFirst_const (hasId i)
                 (fun e => set_updatedAt now (set_verificationToken (Some rnd) e))
                 s entry Hfind).
      apply CUpdate; [constructor|].
      intros rnd' H. apply writes_token in H. now subst. }
    destruct mailOk; simpl; exact Hc. }
  destruct (verificationToken entry) as [tok|]; [|exact Hfresh].
  destruct (Js.truthy tok); [|exact Hfresh].
  destruct mailOk; simpl; constructor.
Qed.

Lemma handle_Change now r s :
  brings r -> Change T s (store (handle now r s)).
Proof.
  intros Hr. unfold handle, Api.handle.
  destruct r as [oid rnd body|token|userId postUrl_| |w sg m op].
  - destruct (Validation.validateWaitlistSubmission isAddress body);
      simpl; [constructor|].
    apply submit_Change. apply Hr. reflexivity.
  - apply verifyEmail_Change.
  - apply savePost_Change.
  - constructor.
  - destruct (Auth.verifyWalletSignature _ _ w sg m); simpl; [|constructor].
    destruct op as [pg lm st se|i st|i|i rnd ok|]; simpl.
    + unfold AdminController.getEntries.
      destruct (getEntries regexTestI pg lm st se s); simpl; constructor.
    + unfold Validation.validateStatusUpdate; cbv zeta.
      destruct (negb (Js.truthy st)); [constructor|].
      destruct (Js.includes validStatuses st) eqn:Hin.
      * change (Js.includes ["pending"; "approved"; "rejected"] st)
          with (Js.includes validStatuses st).
        rewrite Hin. now apply updateStatus_Change.
      * change (Js.includes ["pending"; "approved"; "rejected"] st)
          with (Js.includes validStatuses st).
        rewrite Hin. constructor.
    + apply deleteEntry_Change.
    + apply resendVerification_Change. apply Hr. reflexivity.
    + constructor.
Qed.

End Handlers.

(** *** Properties of documents that every change preserves *)

Section Preservation.

Variable P : Entry -> Prop.
Variable T : string -> Prop.

Hypothesis P_updatedAt : forall now e, P e -> P (set_updatedAt now e).
Hypothesis P_verified : forall e, P e -> P (markVerified e).
Hypothesis P_post :
  forall u e, P e -> P (set_postUrl (Some u) (set_posted true e)).
Hypothesis P_status :
  forall st e, Js.includes validStatuses st = true -> P e -> P (set_status st e).
Hypothesis P_token :
  forall rnd e, T rnd -> P e -> P (set_verificationToken (Some rnd) e).
Hypothesis P_new :
  forall oid now rnd n em w ro no xh,
    T rnd -> P (Waitlist.new oid now n em w ro no xh false (Some rnd) "pending").

Lemma Change_Forall (s s' : Store) :
  Change T s s' -> Forall P s -> Forall P s'.
Proof.
  intros Hc Hs. destruct Hc as [s|p upd s Hupd HT|i s|oid rnd now data s HT Hu].
  - exact Hs.
  - apply updateFirst_Forall; [|exact Hs].
    intros e _ _ He.
    destruct Hupd as [now|now u|now st Hst|now rnd]; auto.
    apply P_updatedAt, P_token; [|exact He].
    apply HT. now exists now.
  - now apply findByIdAndDelete_Forall.
  - apply Forall_app. split; [exact Hs|].
    constructor; [|constructor]. unfold newEntry. now apply P_new.
Qed.

End Preservation.

(** *** Unique identifiers and unique addresses *)

Definition unique (s : Store) : Prop :=
  NoDup (map _id s) /\ NoDup (map email s).

Lemma updateFirst_map {A : Type} (k : Entry -> A) (p : Entry -> bool)
    (upd : Entry -> Entry) (s : Store) :
  (forall e, k (upd e) = k e) ->
  map k (snd (updateFirst p upd s)) = map k s.
Proof.
  intros Hk. induction s as [|x s IH]; simpl; [reflexivity|].
  destruct (p x); simpl.
  - now rewrite Hk.
  - destruct (updateFirst p upd s) as [o r]; simpl in *. now rewrite IH.
Qed.

Lemma findByIdAndDelete_incl (i : ObjectId) (s : Store) (x : Entry) :
  In x (snd (findByIdAndDelete i s)) -> In x s.
Proof.
  induction s as [|y s IH]; simpl; [auto|].
  destruct (hasId i y); simpl; [auto|].
  destruct (findByIdAndDelete i s) as [o r]; simpl in *.
  intros [H|H]; auto.
Qed.

Lemma findByIdAndDelete_NoDup {A : Type} (k : Entry -> A) (i : ObjectId) (s : Store) :
  NoDup (map k s) -> NoDup (map k (snd (findByIdAndDelete i s))).
Proof.
  induction s as [|x s IH]; simpl; [auto|].
  intros Hnd. inversion Hnd as [|? ? Hx Hs]; subst.
  destruct (hasId i x); simpl; [exact Hs|].
  pose proof (findByIdAndDelete_incl i s) as Hincl.
  destruct (findByIdAndDelete i s) as [o r]; simpl in *.
  constructor; [|now apply IH].
  intros Hin. apply Hx.
  apply in_map_iff in Hin. destruct Hin as (y & Hy & Hin).
  apply in_map_iff. exists y. auto.
Qed.

Lemma violatesUnique_false (e : Entry) (s : Store) :
  violatesUnique e s = false ->
  ~ In (_id e) (map _id s) /\ ~ In (email e) (map email s).
Proof.
  unfold violatesUnique. intros H.
  assert (Hall : forall x, In x s ->
            hasId (_id e) x || (email x =? email e) = false).
  { intros x Hx. destruct (hasId (_id e) x || (email x =? email e)) eqn:Hb;
      [|reflexivity].
    assert (existsb (fun x => hasId (_id e) x || (email x =? email e)) s = true)
      by (apply existsb_exists; eauto).
    congruence. }
  split; intros Hin; apply in_map_iff in Hin; destruct Hin as (x & Hx & Hin);
    specialize (Hall x Hin); apply orb_false_iff in Hall; destruct Hall as [H1 H2].
  - apply hasId_false in H1. congruence.
  - apply String.eqb_neq in H2. congruence.
Qed.

Lemma NoDup_snoc {A : Type} (l : list A) (a : A) :
  NoDup l -> ~ In a l -> NoDup (l ++ [a])%list.
Proof.
  intros Hl Ha. induction l as [|x l IH]; simpl.
  - constructor; [intros []|constructor].
  - inversion Hl as [|? ? Hx Hl']; subst.
    constructor.
    + intros Hin. apply in_app_or in Hin. destruct Hin as [Hin|[<-|[]]]; auto.
      apply Ha. now left.
    + apply IH; [exact Hl'|]. intros Hin. apply Ha. now right.
Qed.

Lemma Change_unique (T : string -> Prop) (s s' : Store) :
  Change T s s' -> unique s -> unique s'.
Proof.
  intros Hc [Hid Hem]. destruct Hc as [s|p upd s Hupd _|i s|oid rnd now data s _ Hu].
  - now split.
  - split; rewrite updateFirst_map; auto; destruct Hupd; reflexivity.
  - split; now apply findByIdAndDelete_NoDup.
  - apply violatesUnique_false in Hu. destruct Hu as [Hi He].
    split; rewrite map_app; simpl; now apply NoDup_snoc.
Qed.

Section Runs.

Variable verifyMessage : string -> string -> option string.
Variable ADMIN_WALLET_ADDRESS : option string.
Variable castObjectId : string -> option ObjectId.
Variable oidToString : ObjectId -> string.
Variable isAddress : string -> bool.
Variable regexTestI : string -> string -> bool.

Let run := run verifyMessage ADMIN_WALLET_ADDRESS castObjectId
             oidToString isAddress regexTestI.

(** A property of collections that every change preserves holds along
    every run. *)
Lemma run_invariant (T : string -> Prop) (Q : Store -> Prop)
    (reqs : list (Z * Request)) (s : Store) :
  (forall s1 s2, Change T s1 s2 -> Q s1 -> Q s2) ->
  Forall (fun nr => brings T (snd nr)) reqs ->
  Q s -> Q (run reqs s).
Proof.
  intros HQ. revert s.
  induction reqs as [|[now r] reqs IH]; intros s Hreqs Hs; simpl.
  - exact Hs.
  - inversion Hreqs as [|? ? Hr Hrest]; subst.
    apply IH; [exact Hrest|].
    apply (HQ s); [|exact Hs].
    now apply handle_Change.
Qed.

(** Identifiers and e-mail addresses stay unique. *)
Lemma run_unique (reqs : list (Z * Request)) (s : Store) :
  unique s -> unique (run reqs s).
Proof.
  apply (run_invariant (fun _ => True) unique).
  - intros s1 s2. apply Change_unique.
  - apply Forall_forall. intros nr _ rnd _. exact I.
Qed.

End Runs.

End ApiFacts.


(** C2 (counterexample). A second call with a consumed token: on John's
    entry it is answered 404, not [alreadyVerified: true]. *)
Lemma verifyEmail_twice_not_idempotent :
  let first := WaitlistController.verifyEmail "valid-token-123" 2000 [Fixtures.john] in
  let second := WaitlistController.verifyEmail "valid-token-123" 3000 (store first) in
  statusCode (response first) = 200%Z /\
  payload (response first) = Verified "john.doe@example.com" 1%N /\
  response second =
    mkResponse 404 false "Invalid or expired verification token" NoData /\
  ~ (success (response second) = true /\ payload (response second) = AlreadyVerified).
Proof.
  cbv zeta. repeat split; try reflexivity.
  intros [H _]. vm_compute in H. discriminate H.
Qed.

Lemma verifyEmail_unknown_token (token : string) (now : Z) (s : Store) :
  Js.truthy token = true ->
  (forall x, In x s -> verificationToken x <> Some token) ->
  findByVerificationToken token s = None /\
  WaitlistController.verifyEmail token now s =
    reply 404 false "Invalid or expired verification token" s.
Proof.
  intros Htok Hs.
  assert (Hnone : findByVerificationToken token s = None).
  { apply find_none. intros x Hx. apply strIs_false. auto. }
  split; [exact Hnone|].
  unfold WaitlistController.verifyEmail. now rewrite Htok, Hnone.
Qed.

Lemma no_token_after_verify (token : string) (now : Z) (l1 l2 : Store) (e : Entry) :
  (forall x, In x l1 -> verificationToken x <> Some token) ->
  (forall x, In x l2 -> verificationToken x <> Some token) ->
  forall x, In x (l1 ++ set_updatedAt now (markVerified e) :: l2)%list ->
            verificationToken x <> Some token.
Proof.
  intros H1 H2 x Hx. apply in_app_or in Hx. destruct Hx as [Hx|[<-|Hx]]; auto.
  discriminate.
Qed.

(** C2 (as amended). After the first successful verification with a token
    that no other entry holds, a second call with the same token is answered
    404 and leaves the collection as it is; [alreadyVerified: true] is the
    answer exactly for a token that is still attached to an entry whose
    [emailVerified] is already true. *)
Theorem verifyEmail_second_call
    (token : string) (now now' : Z) (l1 l2 : Store) (e : Entry) :
  Js.truthy token = true ->
  (forall x, In x l1 -> verificationToken x <> Some token) ->
  (forall x, In x l2 -> verificationToken x <> Some token) ->
  verificationToken e = Some token ->
  emailVerified e = false ->
  let first := WaitlistController.verifyEmail token now (l1 ++ e :: l2)%list in
  (statusCode (response first) = 200%Z /\
   WaitlistController.verifyEmail token now' (store first) =
     reply 404 false "Invalid or expired verification token" (store first)) /\
  (forall s,
     payload (response (WaitlistController.verifyEmail token now' s)) = AlreadyVerified
     <-> exists x, findByVerificationToken token s = Some x /\ emailVerified x = true).
Proof.
  intros Htok H1 H2 He Hunv first. split.
  - pose proof (controller_verifyEmail_first token now l1 l2 e Htok H1 He Hunv)
      as Hc.
    unfold first. rewrite Hc. simpl. split; [reflexivity|].
    apply verifyEmail_unknown_token; [exact Htok|].
    now apply no_token_after_verify.
  - intros s. unfold WaitlistController.verifyEmail. rewrite Htok; simpl negb; cbv iota.
    destruct (findByVerificationToken token s) as [x|]; simpl.
    + destruct (emailVerified x) eqn:Hx; simpl.
      * split; [intros _; exists x; auto | reflexivity].
      * destruct (WaitlistService.verifyEmail token now' s); simpl.
        split; [discriminate|]. intros (y & Hy & Hv). congruence.
    + split; [discriminate|]. intros (y & Hy & _). discriminate.
Qed.

Lemma verifyEmail_second_call_witness :
  WaitlistController.verifyEmail "valid-token-123" 3000
    (store (WaitlistController.verifyEmail "valid-token-123" 2000
              [Fixtures.jane; Fixtures.john; Fixtures.bob])) =
  reply 404 false "Invalid or expired verification token"
    (store (WaitlistController.verifyEmail "valid-token-123" 2000
              [Fixtures.jane; Fixtures.john; Fixtures.bob])).
Proof.
  assert (H1 : forall x, In x [Fixtures.jane] ->
                 verificationToken x <> Some "valid-token-123").
  { intros x [<-|[]]; discriminate. }
  assert (H2 : forall x, In x [Fixtures.bob] ->
                 verificationToken x <> Some "valid-token-123").
  { intros x [<-|[]]; discriminate. }
  exact (proj2 (proj1
    (verifyEmail_second_call "valid-token-123" 2000 3000 [Fixtures.jane]
       [Fixtures.bob] Fixtures.john eq_refl H1 H2 eq_refl eq_refl))).
Defined.

Section Application.

Variable verifyMessage : string -> string -> option string.
Variable ADMIN_WALLET_ADDRESS : option string.
Variable castObjectId : string -> option ObjectId.
Variable oidToString : ObjectId -> string.
Variable isAddress : string -> bool.
Variable regexTestI : string -> string -> bool.

Let run := Api.run verifyMessage ADMIN_WALLET_ADDRESS castObjectId
             oidToString isAddress regexTestI.

(** C3. Once the first verification with an entry's token has succeeded,
    the old token value finds no entry: whatever requests follow (none of
    them drawing that same random value again), the lookup by the token
    returns nothing and the verification route answers 404. *)
Theorem token_unrecoverable
    (token : string) (now now' : Z) (l1 l2 : Store) (e : Entry)
    (reqs : list (Z * Api.Request)) :
  Js.truthy token = true ->
  (forall x, In x l1 -> verificationToken x <> Some token) ->
  (forall x, In x l2 -> verificationToken x <> Some token) ->
  verificationToken e = Some token ->
  emailVerified e = false ->
  Forall (fun nr => Api.tokenOf (snd nr) <> Some token) reqs ->
  let first := WaitlistController.verifyEmail token now (l1 ++ e :: l2)%list in
  let later := run reqs (store first) in
  statusCode (response first) = 200%Z /\
  findByVerificationToken token later = None /\
  WaitlistController.verifyEmail token now' later =
    reply 404 false "Invalid or expired verification token" later.
Proof.
  intros Htok H1 H2 He Hunv Hreqs first later.
  pose proof (controller_verifyEmail_first token now l1 l2 e Htok H1 He Hunv)
    as Hc.
  assert (Hfirst : store first = (l1 ++ set_updatedAt now (markVerified e) :: l2)%list)
    by (unfold first; now rewrite Hc).
  split; [unfold first; now rewrite Hc|].
  apply verifyEmail_unknown_token; [exact Htok|].
  apply Forall_forall. unfold later, run.
  apply (ApiFacts.run_invariant verifyMessage ADMIN_WALLET_ADDRESS castObjectId
           oidToString isAddress regexTestI
           (fun rnd => rnd <> token)
           (Forall (fun x => verificationToken x <> Some token))).
  - intros s1 s2.
    apply ApiFacts.Change_Forall; intros; simpl; congruence.
  - eapply Forall_impl; [|exact Hreqs].
    intros [n r] Hr rnd Hrnd; simpl in *. congruence.
  - rewrite Hfirst. apply Forall_forall. now apply no_token_after_verify.
Qed.

Lemma status_counts (s : Store) :
  Forall (fun e => Js.includes validStatuses (status e) = true) s ->
  (countDocuments (fun e => (status e =? "pending")%string) s
   + countDocuments (fun e => (status e =? "approved")%string) s
   + countDocuments (fun e => (status e =? "rejected")%string) s
   = countDocuments (fun _ => true) s)%Z.
Proof.
  unfold countDocuments.
  induction s as [|x s IH]; intros Hinv; [reflexivity|].
  inversion Hinv as [|? ? Hx Hs]; subst. specialize (IH Hs).
  unfold Js.includes, validStatuses in Hx. simpl in Hx.
  assert (Hone :
    (status x =? "pending", status x =? "approved", status x =? "rejected")
    = (true, false, false) \/
    (status x =? "pending", status x =? "approved", status x =? "rejected")
    = (false, true, false) \/
    (status x =? "pending", status x =? "approved", status x =? "rejected")
    = (false, false, true)).
  { destruct (status x =? "pending") eqn:Hp;
      [apply String.eqb_eq in Hp; rewrite Hp; auto|].
    destruct (status x =? "approved") eqn:Ha;
      [apply String.eqb_eq in Ha; rewrite Ha; auto|].
    destruct (status x =? "rejected") eqn:Hr; [auto | discriminate Hx]. }
  cbn [filter].
  destruct Hone as [H|[H|H]]; injection H as -> -> ->;
    cbn [List.length]; rewrite ?Nat2Z.inj_succ; lia.
Qed.

(** C7. The statistics of every collection satisfy
    [verified + unverified = total]; and in every collection whose documents
    carry a status of the schema's enumeration, as in every collection the
    application reaches from it, [pending + approved + rejected = total]. *)
Theorem getStatistics_consistent (s0 : Store) (reqs : list (Z * Api.Request)) :
  (let stats := WaitlistService.getStatistics s0 in
   (verified stats + unverified stats = total stats)%Z) /\
  (Forall (fun e => Js.includes validStatuses (status e) = true) s0 ->
   let stats := WaitlistService.getStatistics (run reqs s0) in
   (verified stats + unverified stats = total stats)%Z /\
   (pending stats + approved stats + rejected stats = total stats)%Z).
Proof.
  split.
  - unfold WaitlistService.getStatistics, getStatistics; simpl. lia.
  - intros Hs0 stats.
    assert (Hinv : Forall (fun e => Js.includes validStatuses (status e) = true)
                     (run reqs s0)).
    { unfold run.
      apply (ApiFacts.run_invariant verifyMessage ADMIN_WALLET_ADDRESS castObjectId
               oidToString isAddress regexTestI
               (fun _ => True)
               (Forall (fun e => Js.includes validStatuses (status e) = true))).
      - intros s1 s2. apply ApiFacts.Change_Forall; intros; simpl; auto.
      - apply Forall_forall. intros nr _ rnd _. exact I.
      - exact Hs0. }
    unfold stats, WaitlistService.getStatistics, getStatistics; simpl.
    split; [lia|]. now apply status_counts.
Qed.

End Application.

Lemma token_unrecoverable_witness :
  findByVerificationToken "valid-token-123"
    (Fixtures.run
       [(2500%Z, Api.PostWaitlist 4 "another-token" Fixtures.validWaitlistEntry2);
        (2600%Z, Fixtures.asAdmin (Api.UpdateStatus "0x1" "rejected"))]
       (store (WaitlistController.verifyEmail "valid-token-123" 2000
                 [Fixtures.jane; Fixtures.john; Fixtures.bob]))) = None.
Proof.
  assert (H1 : forall x, In x [Fixtures.jane] ->
                 verificationToken x <> Some "valid-token-123").
  { intros x [<-|[]]; discriminate. }
  assert (H2 : forall x, In x [Fixtures.bob] ->
                 verificationToken x <> Some "valid-token-123").
  { intros x [<-|[]]; discriminate. }
  assert (H3 : Forall (fun nr => Api.tokenOf (snd nr) <> Some "valid-token-123")
                 [(2500%Z, Api.PostWaitlist 4 "another-token" Fixtures.validWaitlistEntry2);
                  (2600%Z, Fixtures.asAdmin (Api.UpdateStatus "0x1" "rejected"))]).
  { repeat constructor; discriminate. }
  exact (proj1 (proj2
    (token_unrecoverable Fixtures.verifyMessage (Some Fixtures.adminAddress)
       Fixtures.castObjectId Fixtures.oidToString Fixtures.isAddress
       Fixtures.regexTestI "valid-token-123" 2000 3000 [Fixtures.jane]
       [Fixtures.bob] Fixtures.john _ eq_refl H1 H2 eq_refl eq_refl H3))).
Defined.

Lemma getStatistics_consistent_witness :
  let stats :=
    WaitlistService.getStatistics
      (Fixtures.run
         [(2000%Z, Api.GetVerifyEmail "valid-token-123");
          (2100%Z, Fixtures.asAdmin (Api.UpdateStatus "0x3" "rejected"));
          (2200%Z, Fixtures.asAdmin (Api.UpdateStatus "0x2" "archived"))]
         [Fixtures.john; Fixtures.jane; Fixtures.bob]) in
  (verified stats + unverified stats = total stats)%Z /\
  (pending stats + approved stats + rejected stats = total stats)%Z.
Proof.
  apply (getStatistics_consistent Fixtures.verifyMessage (Some Fixtures.adminAddress)
           Fixtures.castObjectId Fixtures.oidToString Fixtures.isAddress
           Fixtures.regexTestI).
  repeat constructor.
Defined.

(** The statistics in that scenario: John verified and approved, Bob
    rejected, the update to a status outside the enumeration refused. *)
Example statistics_of_scenario :
  WaitlistService.getStatistics
    (Fixtures.run
       [(2000%Z, Api.GetVerifyEmail "valid-token-123");
        (2100%Z, Fixtures.asAdmin (Api.UpdateStatus "0x3" "rejected"));
        (2200%Z, Fixtures.asAdmin (Api.UpdateStatus "0x2" "archived"))]
       [Fixtures.john; Fixtures.jane; Fixtures.bob])
  = mkStatistics 3 3 0 2 1 0.
Proof. vm_compute. reflexivity. Qed.

(** ** Submission *)

Lemma violatesUnique_same_email (e x : Entry) (s : Store) :
  In x s -> email x = email e -> violatesUnique e s = true.
Proof.
  intros Hin Heq. unfold violatesUnique. apply existsb_exists.
  exists x. split; [exact Hin|].
  rewrite Heq, String.eqb_refl. apply orb_true_r.
Qed.



(** ** Admin authentication *)

Lemma truthy_toLowerCase (a : string) : Js.truthy (Js.toLowerCase a) = Js.truthy a.
Proof. destruct a; reflexivity. Qed.

Section AdminAuth.

Variable verifyMessage : string -> string -> option string.

(** C5. An attempt whose recovered address differs, up to letter case, from
    the claimed [walletAddress] is rejected 401; a self-consistent attempt
    from an address other than the configured administrator's (up to
    letter case) is rejected 403; the attempts that pass are exactly the
    self-consistent ones from the administrator's address. *)
Theorem verifyWalletSignature_spec
    (admin : string) (walletAddress signature message_ : string) :
  Js.truthy admin = true ->
  let result :=
    Auth.verifyWalletSignature verifyMessage (Some admin)
      walletAddress signature message_ in
  (forall recovered,
     verifyMessage message_ signature = Some recovered ->
     Js.toLowerCase recovered <> Js.toLowerCase walletAddress ->
     exists msg, result = Auth.Reject 401 msg) /\
  (forall recovered,
     Js.truthy walletAddress = true ->
     Js.truthy signature = true ->
     Js.truthy message_ = true ->
     verifyMessage message_ signature = Some recovered ->
     Js.toLowerCase recovered = Js.toLowerCase walletAddress ->
     Js.toLowerCase walletAddress <> Js.toLowerCase admin ->
     result = Auth.Reject 403 "Unauthorized: Admin access required") /\
  (forall adminWallet,
     result = Auth.Next adminWallet <->
     Js.truthy walletAddress = true /\
     Js.truthy signature = true /\
     Js.truthy message_ = true /\
     (exists recovered,
        verifyMessage message_ signature = Some recovered /\
        Js.toLowerCase recovered = Js.toLowerCase admin) /\
     Js.toLowerCase walletAddress = Js.toLowerCase admin /\
     adminWallet = Js.toLowerCase admin).
Proof.
  intros Hadmin result. unfold result, Auth.verifyWalletSignature.
  simpl option_map. unfold Js.truthyOpt, Js.strIsOpt.
  rewrite truthy_toLowerCase, Hadmin. simpl negb at 5. cbv iota.
  split; [|split].
  - intros recovered Hrec Hneq.
    destruct (negb (Js.truthy walletAddress) || negb (Js.truthy signature)
              || negb (Js.truthy message_)); [eauto|].
    rewrite Hrec.
    apply String.eqb_neq in Hneq. rewrite Hneq. simpl. eauto.
  - intros recovered Hw Hs Hm Hrec Heq Hneq.
    rewrite Hw, Hs, Hm. simpl. rewrite Hrec.
    rewrite Heq, String.eqb_refl. simpl.
    assert (Hne : (Js.toLowerCase admin =? Js.toLowerCase walletAddress) = false)
      by (apply String.eqb_neq; congruence).
    now rewrite Hne.
  - intros adminWallet.
    destruct (Js.truthy walletAddress); simpl;
      [|split; [discriminate | intros (H & _); discriminate]].
    destruct (Js.truthy signature); simpl;
      [|split; [discriminate | intros (_ & H & _); discriminate]].
    destruct (Js.truthy message_); simpl;
      [|split; [discriminate | intros (_ & _ & H & _); discriminate]].
    destruct (verifyMessage message_ signature) as [recovered|];
      [|split; [discriminate | intros (_ & _ & _ & (r & Hr & _) & _); discriminate]].
    destruct (Js.toLowerCase recovered =? Js.toLowerCase walletAddress) eqn:Hrw; simpl.
    + apply String.eqb_eq in Hrw.
      destruct (Js.toLowerCase admin =? Js.toLowerCase walletAddress) eqn:Haw; simpl.
      * apply String.eqb_eq in Haw. split.
        -- intros H. injection H as <-.
           repeat split; try congruence. exists recovered. split; congruence.
        -- intros (_ & _ & _ & _ & _ & ->). now rewrite Haw.
      * apply String.eqb_neq in Haw. split; [discriminate|].
        intros (_ & _ & _ & _ & H & _). congruence.
    + apply String.eqb_neq in Hrw. split; [discriminate|].
      intros (_ & _ & _ & (r & Hr & Hra) & Hwa & _).
      injection Hr as <-. congruence.
Qed.

(** Without a configured administrator address a self-consistent attempt
    is answered 500. *)
Lemma verifyWalletSignature_unconfigured
    (walletAddress signature message_ recovered : string) :
  Js.truthy walletAddress = true ->
  Js.truthy signature = true ->
  Js.truthy message_ = true ->
  verifyMessage message_ signature = Some recovered ->
  Js.toLowerCase recovered = Js.toLowerCase walletAddress ->
  Auth.verifyWalletSignature verifyMessage None walletAddress signature message_
  = Auth.Reject 500 "Admin wallet not configured".
Proof.
  intros Hw Hs Hm Hrec Heq. unfold Auth.verifyWalletSignature.
  rewrite Hw, Hs, Hm. simpl. now rewrite Hrec, Heq, String.eqb_refl.
Qed.

End AdminAuth.

Lemma verifyWalletSignature_spec_witness :
  Auth.verifyWalletSignature Fixtures.verifyMessage (Some Fixtures.adminAddress)
    "0x70997970C51812dc3A010C7d01b50e0d17dc79C8"
    "signed:hello:0x70997970c51812dc3a010c7d01b50e0d17dc79c8" "hello"
  = Auth.Reject 403 "Unauthorized: Admin access required".
Proof.
  assert (Hneq : Js.toLowerCase "0x70997970C51812dc3A010C7d01b50e0d17dc79C8"
                 <> Js.toLowerCase Fixtures.adminAddress)
    by (cbv; discriminate).
  exact (proj1 (proj2
    (verifyWalletSignature_spec Fixtures.verifyMessage Fixtures.adminAddress
       "0x70997970C51812dc3A010C7d01b50e0d17dc79C8"
       "signed:hello:0x70997970c51812dc3a010c7d01b50e0d17dc79c8" "hello" eq_refl))
    "0x70997970c51812dc3a010c7d01b50e0d17dc79c8"
    eq_refl eq_refl eq_refl eq_refl eq_refl Hneq).
Defined.

(** ** Resending the verification e-mail *)

Lemma find_updateFirst (p : Entry -> bool) (upd : Entry -> Entry) (s : Store)
    (e : Entry) :
  find p s = Some e ->
  p (upd e) = true ->
  find p (snd (updateFirst p upd s)) = Some (upd e).
Proof.
  induction s as [|x s IH]; simpl; [discriminate|].
  destruct (p x) eqn:Hp.
  - intros H Hu. injection H as ->. simpl. now rewrite Hu.
  - intros H Hu. destruct (updateFirst p upd s) as [o r] eqn:Heq. simpl in *.
    rewrite Hp. now apply IH.
Qed.

Section Resend.

Variable castObjectId : string -> option ObjectId.

(** The controller of the application: a verified entry is refused with
    400 "Email is already verified"; an unverified entry that holds a token
    is mailed that very token and the collection is not written; only an
    unverified entry without a token gets a freshly generated one. *)
Lemma resendVerification_spec
    (id_ rnd : string) (mailOk : bool) (now : Z) (s : Store)
    (i : ObjectId) (entry : Entry) :
  castObjectId id_ = Some i ->
  Waitlist.findById i s = Some entry ->
  let out := AdminController.resendVerification castObjectId id_ rnd mailOk now s in
  (emailVerified entry = true ->
   out = reply 400 false "Email is already verified" s) /\
  (emailVerified entry = false ->
   forall t, verificationToken entry = Some t -> Js.truthy t = true ->
     store out = s /\
     mails out = [mkMail (email entry) t (name entry)] /\
     statusCode (response out) = if mailOk then 200%Z else 500%Z) /\
  (emailVerified entry = false ->
   Js.truthyOpt (verificationToken entry) = false ->
   schemaValidate (set_verificationToken (Some rnd) entry) = true ->
     Waitlist.findById i (store out)
       = Some (set_updatedAt now (set_verificationToken (Some rnd) entry)) /\
     mails out = [mkMail (email entry) rnd (name entry)]).
Proof.
  intros Hcast Hfind out.
  unfold out, AdminController.resendVerification, findById. simpl castId.
  rewrite Hcast, Hfind.
  split; [|split].
  - intros ->. reflexivity.
  - intros -> t -> ->. destruct mailOk; simpl; auto.
  - intros -> Htok Hvalid.
    assert (Hid : _id entry = i).
    { apply find_In in Hfind. now apply hasId_true. }
    assert (Hnew :
      Waitlist.findById i
        (snd (findByIdAndUpdate (_id (set_verificationToken (Some rnd) entry))
                (fun _ => set_verificationToken (Some rnd) entry) now s))
      = Some (set_updatedAt now (set_verificationToken (Some rnd) entry))).
    { simpl _id. rewrite Hid.
      unfold Waitlist.findById, findOne, findByIdAndUpdate, findOneAndUpdate.
      apply (find_updateFirst (hasId i)
               (fun _ => set_updatedAt now (set_verificationToken (Some rnd) entry))
               s entry Hfind).
      apply hasId_true. exact Hid. }
    unfold saveLoaded. rewrite Hvalid. simpl negb. cbv iota.
    destruct (verificationToken entry) as [t|]; simpl in Htok.
    + rewrite Htok. destruct mailOk; simpl; auto.
    + destruct mailOk; simpl; auto.
Qed.

(** The route of the standalone server draws a new token for every
    unverified entry, whether or not it holds one. *)
Lemma legacy_resendVerification_regenerates
    (id_ rnd : string) (mailOk : bool) (now : Z) (s : Store)
    (i : ObjectId) (entry : Entry) :
  castObjectId id_ = Some i ->
  Waitlist.findById i s = Some entry ->
  emailVerified entry = false ->
  let out := LegacyServer.resendVerification castObjectId id_ rnd mailOk now s in
  Waitlist.findById i (store out)
    = Some (set_updatedAt now (set_verificationToken (Some rnd) entry)) /\
  mails out = [mkMail (email entry) rnd (name entry)].
Proof.
  intros Hcast Hfind Hunv out.
  unfold out, LegacyServer.resendVerification.
  unfold Waitlist.findById in Hfind. rewrite Hcast, Hfind, Hunv.
  assert (Hid : _id entry = i).
  { apply find_In in Hfind. now apply hasId_true. }
  rewrite Hid.
  pose proof (find_updateFirst (hasId i)
                (fun e => set_updatedAt now (set_verificationToken (Some rnd) e))
                s entry Hfind) as Hnew.
  destruct (updateFirst (hasId i) _ s) as [o s'] eqn:Heq. simpl in Hnew.
  unfold Waitlist.findById, findOne.
  destruct mailOk; simpl; (split; [apply Hnew; apply hasId_true; exact Hid | reflexivity]).
Qed.

End Resend.

(** C4 (standalone server). On John's entry, unverified and holding the
    token ["valid-token-123"], the resend route of the standalone server
    stores and mails a new token, after which the token already mailed is
    no longer accepted; the controller of the application, on the same
    input, mails the existing token and writes nothing. *)
Theorem legacy_resend_replaces_token :
  let legacy :=
    LegacyServer.resendVerification Fixtures.castObjectId "0x1" "fresh-token"
      true 2000 [Fixtures.john] in
  let current :=
    AdminController.resendVerification Fixtures.castObjectId "0x1" "fresh-token"
      true 2000 [Fixtures.john] in
  option_map verificationToken (Waitlist.findById 1 (store legacy))
    = Some (Some "fresh-token") /\
  mails legacy = [mkMail "john.doe@example.com" "fresh-token" "John Doe"] /\
  statusCode (response (LegacyServer.verifyEmail "valid-token-123" 2100 (store legacy)))
    = 404%Z /\
  store current = [Fixtures.john] /\
  mails current = [mkMail "john.doe@example.com" "valid-token-123" "John Doe"].
Proof. cbv zeta. repeat split; vm_compute; reflexivity. Qed.

(** ** Recording a post URL *)

Lemma postUrlMatch_truthy (raw : string) (groups : string * string * string) :
  postUrlMatch raw = Some groups -> Js.truthy raw = true.
Proof. destruct raw; [discriminate | reflexivity]. Qed.

Section SavePost.

Variable castObjectId : string -> option ObjectId.
Variable oidToString : ObjectId -> string.

Let savePost := WaitlistController.savePost castObjectId oidToString.


(** The owner is recognised by the string form of its identifier: a
    [userId] that designates the owner in another spelling is turned
    away like any other user. *)
Lemma savePost_owner_other_spelling
    (userId rawUrl : string) (now : Z) (s : Store) (i : ObjectId)
    (entry : Entry) (groups : string * string * string) :
  Js.truthy userId = true ->
  postUrlMatch rawUrl = Some groups ->
  castObjectId userId = Some i ->
  Waitlist.findById i s = Some entry ->
  emailVerified entry = true ->
  findByPostUrl (WaitlistController.sanitize groups) s = Some entry ->
  oidToString (_id entry) <> userId ->
  savePost userId rawUrl now s =
    reply 400 false
      "This post has already been used by another user. Please create a new post." s.
Proof.
  intros Huser Hmatch Hcast Hfind Hver Hown Hstr.
  unfold savePost, WaitlistController.savePost.
  rewrite Huser, (postUrlMatch_truthy rawUrl groups Hmatch), Hmatch.
  simpl orb; cbv iota; cbv zeta.
  unfold findById; simpl castId. rewrite Hcast, Hfind, Hver.
  simpl negb; cbv iota. rewrite Hown.
  apply String.eqb_neq in Hstr. now rewrite Hstr.
Qed.

End SavePost.


(** ** The admin listing *)

Lemma In_insertDesc (e x : Entry) (l : list Entry) :
  In x (insertDesc e l) -> x = e \/ In x l.
Proof.
  induction l as [|y l IH]; simpl.
  - intros [<-|[]]; auto.
  - destruct (createdAt y <=? createdAt e)%Z; simpl.
    + intros [<-|[<-|H]]; auto.
    + intros [<-|H]; auto. destruct (IH H); auto.
Qed.

Lemma In_sortDesc (x : Entry) (l : list Entry) : In x (sortDesc l) -> In x l.
Proof.
  induction l as [|y l IH]; simpl; [auto|].
  intros H. apply In_insertDesc in H. destruct H as [->|H]; auto.
Qed.

Lemma In_skipped (n : nat) (l : list Entry) (x : Entry) :
  In x (skipn n l) -> In x l.
Proof.
  intros H. rewrite <- (firstn_skipn n l). apply in_or_app. now right.
Qed.

Lemma In_first (n : nat) (l : list Entry) (x : Entry) :
  In x (firstn n l) -> In x l.
Proof.
  intros H. rewrite <- (firstn_skipn n l). apply in_or_app. now left.
Qed.

Lemma In_skipLimit (n m : Z) (l found : list Entry) (x : Entry) :
  skipLimit n m l = Some found -> In x found -> In x l.
Proof.
  unfold skipLimit. destruct (n <? 0)%Z; [discriminate|].
  intros H Hx. injection H as <-.
  destruct (m =? 0)%Z.
  - now apply In_skipped in Hx.
  - apply In_first in Hx. now apply In_skipped in Hx.
Qed.

Section AdminListing.

Variable regexTestI : string -> string -> bool.

(** C10. Every entry in the payload of the admin listing is the plain
    object of a stored document with all its fields: its
    [verificationToken] key carries the stored value, so for an entry still
    unverified the secret token itself; the projection [toSafeObject],
    which drops that key, is not what the listing returns. *)
Theorem getEntries_exposes_tokens
    (page_ limit_ : Z) (status_ search : string) (s : Store) (result : Page) :
  payload (response (AdminController.getEntries regexTestI page_ limit_
                       status_ search s)) = Listing result ->
  forall obj, In obj (entries result) ->
    exists e,
      In e s /\ obj = toObject e /\
      getKey "verificationToken" obj = Some (jopt (verificationToken e)) /\
      (forall t, emailVerified e = false -> verificationToken e = Some t ->
                 getKey "verificationToken" obj = Some (JStr t)) /\
      getKey "verificationToken" (toSafeObject e) = None /\
      obj <> toSafeObject e.
Proof.
  unfold AdminController.getEntries, WaitlistService.getEntries, getPaginated.
  destruct (skipLimit _ _ _) as [found|] eqn:Hfound; simpl; [|discriminate].
  intros H obj Hobj. injection H as <-. simpl in Hobj.
  apply in_map_iff in Hobj. destruct Hobj as (e & <- & He).
  exists e. split.
  - apply (In_skipLimit _ _ _ _ _ Hfound) in He.
    apply In_sortDesc in He. apply filter_In in He. tauto.
  - split; [reflexivity|]. split; [reflexivity|]. split.
    + intros t _ Ht. unfold getKey; simpl. now rewrite Ht.
    + split; [reflexivity|].
      intros Heq. apply (f_equal (@List.length _)) in Heq. discriminate Heq.
Qed.

End AdminListing.

Lemma getEntries_exposes_tokens_witness :
  exists e,
    In e [Fixtures.john; Fixtures.jane] /\
    toObject Fixtures.john = toObject e /\
    getKey "verificationToken" (toObject Fixtures.john)
      = Some (jopt (verificationToken e)) /\
    (forall t, emailVerified e = false -> verificationToken e = Some t ->
               getKey "verificationToken" (toObject Fixtures.john) = Some (JStr t)) /\
    getKey "verificationToken" (toSafeObject e) = None /\
    toObject Fixtures.john <> toSafeObject e.
Proof.
  refine (getEntries_exposes_tokens Fixtures.regexTestI 1 50 "" "john"
            [Fixtures.john; Fixtures.jane]
            (mkPage [toObject Fixtures.john] (mkPagination 1 50 1 (Some 1%Z)))
            eq_refl (toObject Fixtures.john) _).
  left. reflexivity.
Defined.

(** The listing of a collection that holds John's unverified entry shows
    his token. *)
Example listing_shows_john_token :
  match payload (response (AdminController.getEntries Fixtures.regexTestI 1 50 "" ""
                             [Fixtures.john; Fixtures.jane])) with
  | Listing result =>
      map (getKey "verificationToken") (entries result)
  | _ => []
  end = [Some JNull; Some (JStr "valid-token-123")].
Proof. vm_compute. reflexivity. Qed.

(** ** Concurrent recordings of the same post *)

Section SavePostSteps.

Variable castObjectId : string -> option ObjectId.
Variable oidToString : ObjectId -> string.

(** Run alone, the sequence of round trips is the controller. *)
Lemma savePost_complete (userId postUrl_ : string) (now : Z) (s : Store) :
  Concurrent.complete castObjectId now
    (Concurrent.savePost oidToString userId postUrl_) s
  = (response (WaitlistController.savePost castObjectId oidToString
                 userId postUrl_ now s),
     store (WaitlistController.savePost castObjectId oidToString
              userId postUrl_ now s)).
Proof.
  unfold Concurrent.savePost, WaitlistController.savePost.
  destruct (negb (Js.truthy userId) || negb (Js.truthy postUrl_)); [reflexivity|].
  destruct (postUrlMatch postUrl_) as [groups|]; [|reflexivity].
  cbv zeta. cbn [Concurrent.complete].
  destruct (findById castObjectId (IdStr userId) s) as [[entry|]|]; try reflexivity.
  destruct (negb (emailVerified entry)); [reflexivity|].
  cbn [Concurrent.complete].
  destruct (findByPostUrl (WaitlistController.sanitize groups) s) as [existing|].
  - destruct (negb (oidToString (_id existing) =? userId)); [reflexivity|].
    cbn [Concurrent.complete].
    destruct (updatePostStatus castObjectId (IdObj (_id entry)) _ now s)
      as [[o s']|]; reflexivity.
  - cbn [Concurrent.complete].
    destruct (updatePostStatus castObjectId (IdObj (_id entry)) _ now s)
      as [[o s']|]; reflexivity.
Qed.

End SavePostSteps.

(** C9 (as the code behaves). Bob and Carol, both verified, record the same
    post.  One after the other, the second is refused.  With their round
    trips interleaved (both look the URL up before either writes), both are
    answered 200 and the collection ends with the same canonical URL on two
    entries: no constraint of the store stands in the way. *)
Theorem savePost_race_both_succeed :
  let store0 := [Fixtures.bob; Fixtures.carol] in
  let url := "https://x.com/hashd/status/77" in
  let byBob :=
    Concurrent.savePost Fixtures.oidToString "0x3" "https://x.com/hashd/status/77?s=20" in
  let byCarol :=
    Concurrent.savePost Fixtures.oidToString "0x4" "https://x.com/hashd/status/77#top" in
  (let (r1, s1) := Concurrent.complete Fixtures.castObjectId 2000 byBob store0 in
   let (r2, s2) := Concurrent.complete Fixtures.castObjectId 2000 byCarol s1 in
   statusCode r1 = 200%Z /\ statusCode r2 = 400%Z /\
   map postUrl s2 = [Some url; None]) /\
  (let '(p, q, s) :=
     Concurrent.interleave Fixtures.castObjectId
       [true; false; true; false; true; false] 2000 byBob byCarol store0 in
   p = Concurrent.answer 200 true
         "Post URL saved successfully! We will verify it automatically nearer to launch." /\
   q = Concurrent.answer 200 true
         "Post URL saved successfully! We will verify it automatically nearer to launch." /\
   map postUrl s = [Some url; Some url] /\
   map _id s = [3%N; 4%N]).
Proof. vm_compute. repeat split; reflexivity. Qed.

(** ** End-to-end scenarios *)

(** A submission of the first fixture stores John's entry. *)
Example submit_stores_john :
  WaitlistController.submit 1 "valid-token-123" 1000 Fixtures.validWaitlistEntry []
  = mkOutcome
      (mkResponse 201 true
         "Successfully joined the waitlist. Please check your email to verify your address."
         (Created 1))
      [Fixtures.john]
      [mkMail "john.doe@example.com" "valid-token-123" "John Doe"].
Proof. vm_compute. reflexivity. Qed.

(** Submit with an upper-case address, then verify with the issued token:
    the address is stored in lower case and the entry ends verified,
    approved and without token. *)
Example submit_then_verify :
  let body := mkData "John Doe" "JOHN@EX.COM" None ["developer"] None None in
  let s :=
    Fixtures.run
      [(1000%Z, Api.PostWaitlist 7 "issued-token" body);
       (2000%Z, Api.GetVerifyEmail "issued-token")] [] in
  map (fun e => (email e, emailVerified e, status e, verificationToken e, updatedAt e)) s
  = [("john@ex.com", true, "approved", None, 2000%Z)].
Proof. vm_compute. reflexivity. Qed.

(** Three entries, one per status: the listing filtered on ["approved"]
    returns exactly the approved one. *)
Example listing_filters_by_status :
  let s := [Fixtures.john; Fixtures.jane; set_status "rejected" Fixtures.bob] in
  match payload (response (Api.handle Fixtures.verifyMessage
                             (Some Fixtures.adminAddress) Fixtures.castObjectId
                             Fixtures.oidToString Fixtures.isAddress
                             Fixtures.regexTestI 3000
                             (Fixtures.asAdmin (Api.GetEntries 1 50 "approved" "")) s)) with
  | Listing result => map (getKey "status") (entries result)
  | _ => []
  end = [Some (JStr "approved")].
Proof. vm_compute. reflexivity. Qed.


(* ------------------------------------------------------------------ *)
(** * Further properties of the application *)

Lemma find_split (p : Entry -> bool) (s : Store) (e : Entry) :
  find p s = Some e ->
  exists l1 l2,
    s = (l1 ++ e :: l2)%list /\ (forall x, In x l1 -> p x = false) /\ p e = true.
Proof.
  induction s as [|x s IH]; simpl; [discriminate|].
  destruct (p x) eqn:Hp.
  - intros H. injection H as ->. exists [], s. repeat split; auto.
    intros y [].
  - intros H. destruct (IH H) as (l1 & l2 & -> & Hl1 & He).
    exists (x :: l1), l2. repeat split; auto.
    intros y [<-|Hy]; auto.
Qed.

Lemma updateFirst_fst_none (p : Entry -> bool) (upd : Entry -> Entry) (s : Store) :
  fst (updateFirst p upd s) = None -> snd (updateFirst p upd s) = s.
Proof.
  induction s as [|x s IH]; simpl; [reflexivity|].
  destruct (p x); simpl; [discriminate|].
  destruct (updateFirst p upd s) as [o r]; simpl in *.
  intros H. now rewrite IH.
Qed.

Lemma findByIdAndDelete_fst_none (i : ObjectId) (s : Store) :
  fst (findByIdAndDelete i s) = None -> snd (findByIdAndDelete i s) = s.
Proof.
  induction s as [|x s IH]; simpl; [reflexivity|].
  destruct (hasId i x); simpl; [discriminate|].
  destruct (findByIdAndDelete i s) as [o r]; simpl in *.
  intros H. now rewrite IH.
Qed.

(** ** Invariants of the collection *)

Lemma run_unique_witness :
  ApiFacts.unique
    (Fixtures.run
       [(2000%Z, Api.PostWaitlist 9 "t9" Fixtures.validWaitlistEntry2);
        (2100%Z, Fixtures.asAdmin (Api.DeleteEntry "0x3"));
        (2200%Z, Api.PostWaitlist 3 "t3"
                   (mkData "Bob Again" "BOB.JOHNSON@example.com" None ["other"] None None))]
       [Fixtures.john; Fixtures.jane; Fixtures.bob]).
Proof.
  apply ApiFacts.run_unique.
  split; simpl; repeat constructor; simpl; intuition discriminate.
Defined.

(** A verified entry holds no token. *)
Definition tokenOnlyUnverified (e : Entry) : Prop :=
  emailVerified e = true -> verificationToken e = None.

Section TokenInvariant.

Variable verifyMessage : string -> string -> option string.
Variable ADMIN_WALLET_ADDRESS : option string.
Variable castObjectId : string -> option ObjectId.
Variable oidToString : ObjectId -> string.
Variable isAddress : string -> bool.
Variable regexTestI : string -> string -> bool.

Let handle := Api.handle verifyMessage ADMIN_WALLET_ADDRESS castObjectId
                oidToString isAddress regexTestI.
Let run := Api.run verifyMessage ADMIN_WALLET_ADDRESS castObjectId
             oidToString isAddress regexTestI.

Lemma Change_tokenOnlyUnverified (s s' : Store) :
  ApiFacts.Change (fun _ => False) s s' ->
  Forall tokenOnlyUnverified s -> Forall tokenOnlyUnverified s'.
Proof.
  apply ApiFacts.Change_Forall; unfold tokenOnlyUnverified; simpl; auto;
    intros; contradiction.
Qed.

Lemma submit_tokenOnlyUnverified oid rnd now body s :
  Forall tokenOnlyUnverified s ->
  Forall tokenOnlyUnverified (store (WaitlistController.submit oid rnd now body s)).
Proof.
  intros Hs. unfold WaitlistController.submit, createEntry, save.
  destruct (negb (schemaValidate _)); simpl; [exact Hs|].
  destruct (violatesUnique _ s); simpl; [exact Hs|].
  apply Forall_app. split; [exact Hs|].
  constructor; [|constructor]. intros H. discriminate H.
Qed.

Lemma resend_tokenOnlyUnverified id_ rnd mailOk now s :
  Forall tokenOnlyUnverified s ->
  Forall tokenOnlyUnverified
    (store (AdminController.resendVerification castObjectId id_ rnd mailOk now s)).
Proof.
  intros Hs. unfold AdminController.resendVerification, findById. simpl castId.
  destruct (castObjectId id_) as [i|]; simpl; [|exact Hs].
  destruct (Waitlist.findById i s) as [entry|] eqn:Hfind; simpl; [|exact Hs].
  destruct (emailVerified entry) eqn:Hunv; simpl; [exact Hs|].
  assert (Hfresh :
    Forall tokenOnlyUnverified (store
      match saveLoaded (set_verificationToken (Some rnd) entry) now s with
      | inl _ => reply 500 false "Failed to send verification email" s
      | inr s' =>
          if mailOk
          then mkOutcome
                 (mkResponse 200 true "Verification email sent successfully" NoData)
                 s' [mkMail (email entry) rnd (name entry)]
          else mkOutcome
                 (mkResponse 500 false "Failed to send verification email" NoData)
                 s' [mkMail (email entry) rnd (name entry)]
      end)).
  { unfold saveLoaded.
    destruct (negb (schemaValidate _)); simpl; [exact Hs|].
    assert (Hs' : Forall tokenOnlyUnverified
                    (snd (findByIdAndUpdate
                            (_id (set_verificationToken (Some rnd) entry))
                            (fun _ => set_verificationToken (Some rnd) entry) now s))).
    { apply updateFirst_Forall; [|exact Hs].
      intros doc _ _ _ H. simpl in H. congruence. }
    destruct mailOk; simpl; exact Hs'. }
  destruct (verificationToken entry) as [tok|]; [|exact Hfresh].
  destruct (Js.truthy tok); [|exact Hfresh].
  destruct mailOk; simpl; exact Hs.
Qed.

Lemma handle_tokenOnlyUnverified now r s :
  Forall tokenOnlyUnverified s ->
  Forall tokenOnlyUnverified (store (handle now r s)).
Proof.
  intros Hs.
  assert (Hother : Api.tokenOf r = None ->
                   Forall tokenOnlyUnverified (store (handle now r s))).
  { intros Hnone. apply (Change_tokenOnlyUnverified s); [|exact Hs].
    apply ApiFacts.handle_Change. intros rnd Hr. congruence. }
  destruct r as [oid rnd body|token|userId postUrl_| |w sg m op];
    try (apply Hother; reflexivity).
  - unfold handle, Api.handle.
    destruct (Validation.validateWaitlistSubmission isAddress body);
      simpl; [exact Hs|].
    now apply submit_tokenOnlyUnverified.
  - destruct op as [pg lm st se|i st|i|i rnd ok|];
      try (apply Hother; reflexivity).
    unfold handle, Api.handle.
    destruct (Auth.verifyWalletSignature _ _ w sg m); simpl; [|exact Hs].
    now apply resend_tokenOnlyUnverified.
Qed.

(** Along every sequence of requests, the entries whose e-mail is verified
    hold no verification token (if that was so at the start). *)
Theorem verified_entries_hold_no_token (reqs : list (Z * Api.Request)) (s : Store) :
  Forall tokenOnlyUnverified s ->
  Forall tokenOnlyUnverified (run reqs s).
Proof.
  revert s. induction reqs as [|[now r] reqs IH]; intros s Hs; simpl.
  - exact Hs.
  - apply IH. now apply handle_tokenOnlyUnverified.
Qed.

End TokenInvariant.

Lemma verified_entries_hold_no_token_witness :
  Forall tokenOnlyUnverified
    (Fixtures.run
       [(2000%Z, Fixtures.asAdmin (Api.ResendVerification "0x1" "t-new" true));
        (2100%Z, Api.GetVerifyEmail "valid-token-123");
        (2200%Z, Fixtures.asAdmin (Api.ResendVerification "0x1" "t-late" true))]
       [Fixtures.john; Fixtures.jane; Fixtures.bob]).
Proof.
  apply (verified_entries_hold_no_token Fixtures.verifyMessage
           (Some Fixtures.adminAddress) Fixtures.castObjectId Fixtures.oidToString
           Fixtures.isAddress Fixtures.regexTestI).
  repeat constructor; intros H; try reflexivity; discriminate H.
Defined.

(** ** The two verification routes *)



(** ** The canonical form of a post URL *)

Lemma stripPrefix_spec (p s r : string) :
  Js.stripPrefix p s = Some r -> s = p ++ r.
Proof.
  revert s. induction p as [|a p IH]; intros s; simpl.
  - intros H. now injection H as ->.
  - destruct s as [|b s]; [discriminate|].
    destruct (Ascii.eqb a b) eqn:Hab; [|discriminate].
    apply Ascii.eqb_eq in Hab. subst b. intros H. now rewrite (IH s H).
Qed.

Lemma stripPrefix_app (p r : string) : Js.stripPrefix p (p ++ r) = Some r.
Proof.
  induction p as [|a p IH]; simpl; [reflexivity|].
  now rewrite Ascii.eqb_refl.
Qed.

(** The rest of a string after the longest prefix in a class is empty or
    starts outside the class. *)
Definition stops (p : ascii -> bool) (b : string) : Prop :=
  match b with
  | EmptyString => True
  | String c _ => p c = false
  end.

Lemma span_spec (p : ascii -> bool) (s a b : string) :
  Js.span p s = (a, b) -> s = a ++ b /\ Js.all p a = true /\ stops p b.
Proof.
  revert a b. induction s as [|c s IH]; intros a b; simpl.
  - intros H. injection H as <- <-. simpl. auto.
  - destruct (p c) eqn:Hc.
    + destruct (Js.span p s) as [a' b'] eqn:Hs.
      intros H. injection H as <- <-.
      destruct (IH a' b' eq_refl) as (-> & Ha & Hb).
      simpl. rewrite Hc. auto.
    + intros H. injection H as <- <-. simpl. auto.
Qed.

Lemma span_app (p : ascii -> bool) (a b : string) :
  Js.all p a = true -> stops p b -> Js.span p (a ++ b) = (a, b).
Proof.
  induction a as [|c a IH]; simpl; intros Ha Hb.
  - destruct b as [|d b]; [reflexivity|]. simpl in Hb. simpl. now rewrite Hb.
  - apply andb_true_iff in Ha. destruct Ha as [Hc Ha].
    rewrite Hc, (IH Ha Hb). reflexivity.
Qed.

Lemma append_empty_r (s : string) : s ++ "" = s.
Proof. induction s as [|c s IH]; simpl; [reflexivity | now rewrite IH]. Qed.

Lemma append_assoc (a b c : string) : (a ++ b) ++ c = a ++ (b ++ c).
Proof. induction a as [|x a IH]; simpl; [reflexivity | now rewrite IH]. Qed.

(** What a match of the post-URL pattern captures. *)
Lemma postUrlMatch_groups (raw domain username tweetId : string) :
  postUrlMatch raw = Some (domain, username, tweetId) ->
  (domain = "twitter.com" \/ domain = "x.com") /\
  username <> "" /\ Js.all Js.isWord username = true /\
  tweetId <> "" /\ Js.all Js.isDigit tweetId = true /\
  exists rest,
    raw = "https://" ++ domain ++ "/" ++ username ++ "/status/" ++ tweetId ++ rest
    /\ stops Js.isDigit rest.
Proof.
  unfold postUrlMatch.
  destruct (Js.stripPrefix "https://" raw) as [r|] eqn:H0; [|discriminate].
  apply stripPrefix_spec in H0. subst raw.
  assert (Hdom : forall d r1,
    (d = "twitter.com" \/ d = "x.com") -> r = d ++ r1 ->
    match Js.stripPrefix "/" r1 with
    | Some r2 =>
        let (username0, r3) := Js.span Js.isWord r2 in
        match username0 with
        | "" => None
        | String _ _ =>
            match Js.stripPrefix "/status/" r3 with
            | Some r4 =>
                let (tweetId0, _) := Js.span Js.isDigit r4 in
                match tweetId0 with
                | "" => None
                | String _ _ => Some (d, username0, tweetId0)
                end
            | None => None
            end
        end
    | None => None
    end = Some (domain, username, tweetId) ->
    (domain = "twitter.com" \/ domain = "x.com") /\
    username <> "" /\ Js.all Js.isWord username = true /\
    tweetId <> "" /\ Js.all Js.isDigit tweetId = true /\
    exists rest,
      "https://" ++ r
      = "https://" ++ domain ++ "/" ++ username ++ "/status/" ++ tweetId ++ rest
      /\ stops Js.isDigit rest).
  { intros d r1 Hd Hr.
    destruct (Js.stripPrefix "/" r1) as [r2|] eqn:H1; [|discriminate].
    apply stripPrefix_spec in H1.
    destruct (Js.span Js.isWord r2) as [u r3] eqn:H2.
    apply span_spec in H2. destruct H2 as (H2 & Hu & _).
    destruct u as [|c u]; [discriminate|].
    destruct (Js.stripPrefix "/status/" r3) as [r4|] eqn:H3; [|discriminate].
    apply stripPrefix_spec in H3.
    destruct (Js.span Js.isDigit r4) as [t rest] eqn:H4.
    apply span_spec in H4. destruct H4 as (H4 & Ht & Hrest).
    destruct t as [|c' t]; [discriminate|].
    intros H. injection H as <- <- <-.
    split; [exact Hd|].
    split; [discriminate|]. split; [exact Hu|].
    split; [discriminate|]. split; [exact Ht|].
    exists rest. split; [|exact Hrest].
    rewrite Hr, H1, H2, H3, H4.
    rewrite ?append_assoc. reflexivity. }
  destruct (Js.stripPrefix "twitter.com" r) as [r1|] eqn:Ht.
  - apply stripPrefix_spec in Ht. apply (Hdom "twitter.com" r1); auto.
  - destruct (Js.stripPrefix "x.com" r) as [r1|] eqn:Hx; [|discriminate].
    apply stripPrefix_spec in Hx. apply (Hdom "x.com" r1); auto.
Qed.

(** A URL that the pattern accepts starts with its canonical form (what
    follows the tweet id is cut off), and the canonical form is a fixed
    point: it is accepted, with the same groups, and canonicalises to
    itself. *)
Theorem sanitize_canonical (raw : string) (groups : string * string * string) :
  postUrlMatch raw = Some groups ->
  (exists rest, raw = WaitlistController.sanitize groups ++ rest
                /\ stops Js.isDigit rest) /\
  postUrlMatch (WaitlistController.sanitize groups) = Some groups.
Proof.
  destruct groups as [[domain username] tweetId]. intros Hm.
  destruct (postUrlMatch_groups raw domain username tweetId Hm)
    as (Hd & Hu0 & Hu & Ht0 & Ht & rest & Hraw & Hrest).
  split.
  - exists rest. split; [|exact Hrest].
    rewrite Hraw. unfold WaitlistController.sanitize.
    rewrite ?append_assoc. reflexivity.
  - unfold WaitlistController.sanitize, postUrlMatch.
    rewrite (stripPrefix_app "https://").
    assert (Hw : Js.span Js.isWord (username ++ "/status/" ++ tweetId)
                 = (username, "/status/" ++ tweetId))
      by (apply span_app; [exact Hu | reflexivity]).
    assert (Hg : Js.span Js.isDigit tweetId = (tweetId, "")).
    { rewrite <- (append_empty_r tweetId) at 1. apply span_app; [exact Ht | exact I]. }
    destruct username as [|c u]; [congruence|].
    destruct tweetId as [|c' t]; [congruence|].
    destruct Hd as [-> | ->].
    + rewrite (stripPrefix_app "twitter.com"). rewrite (stripPrefix_app "/").
      rewrite Hw. rewrite (stripPrefix_app "/status/"). rewrite Hg. reflexivity.
    + change (Js.stripPrefix "twitter.com" ("x.com" ++ "/" ++ String c u ++ "/status/" ++ String c' t))
        with (@None string).
      rewrite (stripPrefix_app "x.com"). rewrite (stripPrefix_app "/").
      rewrite Hw. rewrite (stripPrefix_app "/status/"). rewrite Hg. reflexivity.
Qed.

Lemma sanitize_canonical_witness :
  postUrlMatch (WaitlistController.sanitize ("x.com", "hashd", "77"))
  = Some ("x.com", "hashd", "77").
Proof.
  exact (proj2 (sanitize_canonical "https://x.com/hashd/status/77?s=20&t=abc"
                  ("x.com", "hashd", "77") eq_refl)).
Defined.

(** ** Post URLs, one request at a time *)

(** The post URLs present in the collection. *)
Definition urls (s : Store) : list string :=
  flat_map (fun e => match postUrl e with Some u => [u] | None => [] end) s.

Lemma urls_app (a b : Store) : urls (a ++ b)%list = (urls a ++ urls b)%list.
Proof. unfold urls. apply flat_map_app. Qed.

Lemma In_urls (u : string) (s : Store) :
  In u (urls s) <-> exists e, In e s /\ postUrl e = Some u.
Proof.
  unfold urls. rewrite in_flat_map. split.
  - intros (e & He & Hu). exists e. split; [exact He|].
    destruct (postUrl e) as [v|]; [|destruct Hu].
    destruct Hu as [->|[]]. reflexivity.
  - intros (e & He & Hu). exists e. split; [exact He|].
    rewrite Hu. now left.
Qed.

Lemma same_id_same_entry (s : Store) (a b : Entry) :
  NoDup (map _id s) -> In a s -> In b s -> _id a = _id b -> a = b.
Proof.
  induction s as [|x s IH]; simpl; [intros _ []|].
  intros Hnd Ha Hb Hid. inversion Hnd as [|? ? Hx Hs]; subst.
  destruct Ha as [->|Ha], Hb as [->|Hb]; auto.
  - exfalso. apply Hx. rewrite Hid. now apply in_map.
  - exfalso. apply Hx. rewrite <- Hid. now apply in_map.
Qed.

Lemma NoDup_app_drop {A : Type} (a b c : list A) :
  NoDup (a ++ b ++ c)%list -> NoDup (a ++ c)%list.
Proof.
  induction b as [|x b IH]; simpl; [auto|].
  intros H. apply IH. eapply NoDup_remove_1. exact H.
Qed.

Section SequentialPosts.

Variable castObjectId : string -> option ObjectId.
Variable oidToString : ObjectId -> string.

(** Served one after the other, [savePost] keeps the post URLs of the
    collection pairwise distinct (identifiers being unique and written back
    by [toString] as the cast reads them). *)
Theorem savePost_keeps_urls_unique
    (userId rawUrl : string) (now : Z) (s : Store) :
  NoDup (map _id s) ->
  NoDup (urls s) ->
  (forall e, In e s -> castObjectId (oidToString (_id e)) = Some (_id e)) ->
  NoDup (urls (store (WaitlistController.savePost castObjectId oidToString
                        userId rawUrl now s))).
Proof.
  intros Hids Hurls Hround. unfold WaitlistController.savePost.
  destruct (_ || _); simpl; [exact Hurls|].
  destruct (postUrlMatch rawUrl) as [groups|]; simpl; [|exact Hurls].
  set (u := WaitlistController.sanitize groups).
  unfold findById; simpl castId.
  destruct (castObjectId userId) as [i|] eqn:Hcast; simpl; [|exact Hurls].
  destruct (Waitlist.findById i s) as [entry|] eqn:Hfind; simpl; [|exact Hurls].
  destruct (negb (emailVerified entry)); simpl; [exact Hurls|].
  assert (Hid : _id entry = i).
  { apply find_In in Hfind. now apply hasId_true. }
  assert (Hin : In entry s) by (apply find_In in Hfind; tauto).
  destruct (find_split _ _ _ Hfind) as (l1 & l2 & Hs & Hl1 & _).
  assert (Hnew :
    snd (findByIdAndUpdate (_id entry)
           (fun e => set_postUrl (Some u) (set_posted true e)) now s)
    = (l1 ++ set_updatedAt now (set_postUrl (Some u) (set_posted true entry)) :: l2)%list).
  { unfold findByIdAndUpdate, findOneAndUpdate. rewrite Hid, Hs.
    rewrite (updateFirst_app_first (hasId i) _ l1 l2 entry); auto.
    apply hasId_true. exact Hid. }
  assert (Hgoal : NoDup (urls l1 ++ urls l2)%list -> ~ In u (urls l1 ++ urls l2)%list ->
                  NoDup (urls (l1 ++ set_updatedAt now
                                 (set_postUrl (Some u) (set_posted true entry)) :: l2)%list)).
  { intros Hnd Hnot. rewrite urls_app. simpl.
    apply (NoDup_Add (a := u) (l := (urls l1 ++ urls l2)%list)).
    - apply Add_app.
    - split; assumption. }
  assert (Hdrop : NoDup (urls l1 ++ urls l2)%list).
  { rewrite Hs, urls_app in Hurls. simpl in Hurls.
    apply (NoDup_app_drop _ _ _ Hurls). }
  destruct (findByPostUrl u s) as [existing|] eqn:Hurl; simpl.
  - destruct (oidToString (_id existing) =? userId) eqn:Hstr; simpl; [|exact Hurls].
    apply String.eqb_eq in Hstr.
    assert (Hex : In existing s /\ postUrl existing = Some u).
    { unfold findByPostUrl, findOne in Hurl. apply find_In in Hurl.
      destruct Hurl as [Hi Hp]. split; [exact Hi | now apply strIs_true]. }
    destruct Hex as [Hexin Hexurl].
    assert (Hsame : existing = entry).
    { apply (same_id_same_entry s); auto.
      pose proof (Hround existing Hexin) as Hr. rewrite Hstr, Hcast in Hr.
      injection Hr as <-. now rewrite Hid. }
    subst existing.
    unfold updatePostStatus; simpl castId. fold u.
    destruct (findByIdAndUpdate (_id entry) _ now s) as [o s'];
      simpl in Hnew |- *; rewrite Hnew.
    rewrite urls_app. simpl.
    rewrite Hs, urls_app in Hurls. simpl in Hurls. rewrite Hexurl in Hurls.
    exact Hurls.
  - unfold updatePostStatus; simpl castId. fold u.
    destruct (findByIdAndUpdate (_id entry) _ now s) as [o s'];
      simpl in Hnew |- *; rewrite Hnew.
    apply Hgoal; [exact Hdrop|].
    intros Hu. rewrite <- urls_app in Hu.
    assert (Hu' : In u (urls s)).
    { rewrite Hs, urls_app. simpl. rewrite urls_app in Hu.
      apply in_app_or in Hu. apply in_or_app.
      destruct Hu as [Hu|Hu]; [left|right]; auto.
      apply in_or_app. now right. }
    apply In_urls in Hu'. destruct Hu' as (e & He & Heu).
    unfold findByPostUrl, findOne in Hurl.
    pose proof (List.find_none _ _ Hurl e He) as Hn. simpl in Hn.
    apply strIs_false in Hn. contradiction.
Qed.

End SequentialPosts.

Lemma savePost_keeps_urls_unique_witness :
  NoDup (urls (store (WaitlistController.savePost Fixtures.castObjectId
                        Fixtures.oidToString "0x3"
                        "https://x.com/bob/status/1001?ref=home" 2000
                        [Fixtures.john; Fixtures.jane; Fixtures.bob]))).
Proof.
  apply savePost_keeps_urls_unique.
  - simpl. repeat constructor; simpl; intuition discriminate.
  - simpl. repeat constructor; simpl; intuition discriminate.
  - intros e [<-|[<-|[<-|[]]]]; reflexivity.
Defined.

(** ** The admin routes on one entry *)

Section AdminRoutes.

Variable castObjectId : string -> option ObjectId.
Variable regexTestI : string -> string -> bool.

Let adminRoute := Api.adminRoute castObjectId regexTestI.

(** The status route: a status outside the enumeration is refused with 400
    and nothing is written; otherwise an unknown identifier is answered 404
    and a known one 200, the first document with that identifier getting
    the new status and time stamp and nothing else changing.  The answer
    400 "Failed to update status" never occurs. *)
Theorem updateStatus_route (id_ status_ : string) (now : Z) (s : Store) (i : ObjectId) :
  castObjectId id_ = Some i ->
  let out := adminRoute (Api.UpdateStatus id_ status_) now s in
  (Js.includes validStatuses status_ = false ->
   statusCode (response out) = 400%Z /\ store out = s) /\
  (Js.includes validStatuses status_ = true ->
   (Waitlist.findById i s = None ->
    out = reply 404 false "Waitlist entry not found" s) /\
   (forall e, Waitlist.findById i s = Some e ->
      exists l1 l2,
        s = (l1 ++ e :: l2)%list /\
        out = reply 200 true "Status updated successfully"
                (l1 ++ set_updatedAt now (set_status status_ e) :: l2)%list)).
Proof.
  intros Hcast out. unfold out, adminRoute, Api.adminRoute.
  unfold Validation.validateStatusUpdate; cbv zeta.
  change (Js.includes ["pending"; "approved"; "rejected"] status_)
    with (Js.includes validStatuses status_).
  split.
  - intros Hbad. rewrite Hbad.
    destruct (negb (Js.truthy status_)); simpl; auto.
  - intros Hok. rewrite Hok.
    assert (Htr : Js.truthy status_ = true).
    { destruct status_; [discriminate Hok | reflexivity]. }
    rewrite Htr. simpl negb. cbv iota.
    unfold AdminController.updateStatus, findById, updateStatus. simpl castId.
    rewrite Hcast. split.
    + intros Hnone. now rewrite Hnone.
    + intros e Hfind. rewrite Hfind.
      destruct (find_split _ _ _ Hfind) as (l1 & l2 & Hs & Hl1 & He).
      exists l1, l2. split; [exact Hs|].
      unfold findByIdAndUpdate, findOneAndUpdate. rewrite Hs.
      rewrite (updateFirst_app_first (hasId i) _ l1 l2 e Hl1 He).
      reflexivity.
Qed.

(** The delete route: an unknown identifier is answered 404 and nothing is
    removed; a known one is answered 200 and exactly the first document
    with that identifier is removed, after which (identifiers being
    unique) the identifier is unknown. *)
Theorem deleteEntry_route (id_ : string) (now : Z) (s : Store) (i : ObjectId) :
  castObjectId id_ = Some i ->
  let out := adminRoute (Api.DeleteEntry id_) now s in
  (Waitlist.findById i s = None ->
   out = reply 404 false "Waitlist entry not found" s) /\
  (forall e, Waitlist.findById i s = Some e ->
     exists l1 l2,
       s = (l1 ++ e :: l2)%list /\
       out = reply 200 true "Entry deleted successfully" (l1 ++ l2)%list /\
       (NoDup (map _id s) -> Waitlist.findById i (l1 ++ l2)%list = None)).
Proof.
  intros Hcast out. unfold out, adminRoute, Api.adminRoute.
  unfold AdminController.deleteEntry, findById, deleteEntry. simpl castId.
  rewrite Hcast. split.
  - intros Hnone. now rewrite Hnone.
  - intros e Hfind. rewrite Hfind.
    destruct (find_split _ _ _ Hfind) as (l1 & l2 & Hs & Hl1 & He).
    exists l1, l2. split; [exact Hs|].
    assert (Hdel : findByIdAndDelete i s = (Some e, (l1 ++ l2)%list)).
    { rewrite Hs. clear - Hl1 He.
      induction l1 as [|x l1 IH]; simpl.
      - now rewrite He.
      - rewrite (Hl1 x (or_introl eq_refl)).
        rewrite IH; [reflexivity|]. intros y Hy. apply Hl1. now right. }
    rewrite Hdel. split; [reflexivity|].
    intros Hnd. apply StoreFacts.find_none. intros x Hx.
    apply hasId_false. intros Hxi.
    apply hasId_true in He.
    rewrite Hs, map_app in Hnd. simpl in Hnd.
    apply NoDup_remove_2 in Hnd. apply Hnd.
    rewrite <- map_app. rewrite He, <- Hxi. now apply in_map.
Qed.

End AdminRoutes.

Lemma updateStatus_route_witness :
  exists l1 l2,
    [Fixtures.john; Fixtures.jane] = (l1 ++ Fixtures.jane :: l2)%list /\
    Api.adminRoute Fixtures.castObjectId Fixtures.regexTestI
      (Api.UpdateStatus "0x2" "rejected") 3000 [Fixtures.john; Fixtures.jane]
    = reply 200 true "Status updated successfully"
        (l1 ++ set_updatedAt 3000 (set_status "rejected" Fixtures.jane) :: l2)%list.
Proof.
  exact (proj2 (proj2 (updateStatus_route Fixtures.castObjectId Fixtures.regexTestI
                         "0x2" "rejected" 3000 [Fixtures.john; Fixtures.jane] 2
                         eq_refl) eq_refl) Fixtures.jane eq_refl).
Defined.

Lemma deleteEntry_route_witness :
  exists l1 l2,
    [Fixtures.john; Fixtures.jane; Fixtures.bob] = (l1 ++ Fixtures.jane :: l2)%list /\
    Api.adminRoute Fixtures.castObjectId Fixtures.regexTestI
      (Api.DeleteEntry "0x2") 3000 [Fixtures.john; Fixtures.jane; Fixtures.bob]
    = reply 200 true "Entry deleted successfully" (l1 ++ l2)%list /\
    (NoDup (map _id [Fixtures.john; Fixtures.jane; Fixtures.bob]) ->
     Waitlist.findById 2 (l1 ++ l2)%list = None).
Proof.
  exact (proj2 (deleteEntry_route Fixtures.castObjectId Fixtures.regexTestI
                  "0x2" 3000 [Fixtures.john; Fixtures.jane; Fixtures.bob] 2 eq_refl)
           Fixtures.jane eq_refl).
Defined.

(** ** How requests compose *)

Section Composition.

Variable castObjectId : string -> option ObjectId.

(** Deleting an entry frees its address: on a collection with unique
    identifiers and addresses, a valid submission with the address of the
    entry just deleted (and an identifier not in use) is accepted. *)
Theorem delete_frees_email
    (id_ : string) (i oid : ObjectId) (rnd : string) (now : Z) (body : Data)
    (s : Store) (e : Entry) :
  ApiFacts.unique s ->
  castObjectId id_ = Some i ->
  Waitlist.findById i s = Some e ->
  email (newEntry oid rnd now body) = email e ->
  schemaValidate (newEntry oid rnd now body) = true ->
  (forall x, In x s -> _id x = oid -> x = e) ->
  let afterDelete := store (AdminController.deleteEntry castObjectId id_ s) in
  statusCode (response (WaitlistController.submit oid rnd now body s)) = 409%Z /\
  statusCode (response (WaitlistController.submit oid rnd now body afterDelete)) = 201%Z.
Proof.
  intros [Hids Hemails] Hcast Hfind Hemail Hvalid Hoid afterDelete.
  destruct (find_split _ _ _ Hfind) as (l1 & l2 & Hs & Hl1 & He).
  assert (Hin : In e s) by (rewrite Hs; apply in_or_app; right; now left).
  split.
  - unfold WaitlistController.submit, createEntry, save.
    rewrite Hvalid. simpl negb. cbv iota.
    rewrite (violatesUnique_same_email _ e s Hin (eq_sym Hemail)). reflexivity.
  - assert (Hafter : afterDelete = (l1 ++ l2)%list).
    { unfold afterDelete, AdminController.deleteEntry, findById, deleteEntry.
      simpl castId. rewrite Hcast, Hfind.
      assert (Hdel : findByIdAndDelete i s = (Some e, (l1 ++ l2)%list)).
      { rewrite Hs. clear - Hl1 He.
        induction l1 as [|x l1 IH]; simpl.
        - now rewrite He.
        - rewrite (Hl1 x (or_introl eq_refl)).
          rewrite IH; [reflexivity|]. intros y Hy. apply Hl1. now right. }
      now rewrite Hdel. }
    rewrite Hafter.
    assert (Hnot : forall x, In x (l1 ++ l2)%list -> x <> e).
    { intros x Hx ->.
      rewrite Hs, map_app in Hemails. simpl in Hemails.
      apply NoDup_remove_2 in Hemails. apply Hemails.
      rewrite <- map_app. now apply in_map. }
    assert (Hfree : violatesUnique (newEntry oid rnd now body) (l1 ++ l2)%list = false).
    { unfold violatesUnique.
      destruct (existsb _ (l1 ++ l2)%list) eqn:Hex; [|reflexivity].
      exfalso. apply existsb_exists in Hex. destruct Hex as (x & Hx & Hb).
      assert (Hxs : In x s).
      { rewrite Hs. apply in_app_or in Hx. apply in_or_app.
        destruct Hx; [left | right; right]; assumption. }
      apply orb_true_iff in Hb. destruct Hb as [Hb|Hb].
      - apply hasId_true in Hb. simpl in Hb.
        apply (Hnot x Hx). now apply Hoid.
      - apply String.eqb_eq in Hb. rewrite Hemail in Hb.
        apply (Hnot x Hx).
        clear - Hemails Hxs Hin Hb.
        induction s as [|y s IH]; [destruct Hin|].
        simpl in Hemails. inversion Hemails as [|? ? Hy Hrest]; subst.
        destruct Hxs as [->|Hxs], Hin as [->|Hin]; auto.
        + exfalso. apply Hy. rewrite Hb. now apply in_map.
        + exfalso. apply Hy. rewrite <- Hb. now apply in_map. }
    unfold WaitlistController.submit, createEntry, save.
    rewrite Hvalid, Hfree. reflexivity.
Qed.

End Composition.

Lemma delete_frees_email_witness :
  statusCode (response
    (WaitlistController.submit 9 "t9" 3000
       (mkData "Bob Again" "BOB.JOHNSON@example.com" None ["other"] None None)
       (store (AdminController.deleteEntry Fixtures.castObjectId "0x3"
                 [Fixtures.john; Fixtures.jane; Fixtures.bob])))) = 201%Z.
Proof.
  refine (proj2 (delete_frees_email Fixtures.castObjectId "0x3" 3 9 "t9" 3000
                   (mkData "Bob Again" "BOB.JOHNSON@example.com" None ["other"] None None)
                   [Fixtures.john; Fixtures.jane; Fixtures.bob] Fixtures.bob
                   _ eq_refl eq_refl eq_refl eq_refl _)).
  - split; simpl; repeat constructor; simpl; intuition discriminate.
  - intros x [<-|[<-|[<-|[]]]] H; discriminate H.
Defined.

(** ** What a request writes and mails *)

Definition isResend (r : Api.Request) : bool :=
  match r with
  | Api.Admin _ _ _ (Api.ResendVerification _ _ _) => true
  | _ => false
  end.

Section Effects.

Variable verifyMessage : string -> string -> option string.
Variable ADMIN_WALLET_ADDRESS : option string.
Variable castObjectId : string -> option ObjectId.
Variable oidToString : ObjectId -> string.
Variable isAddress : string -> bool.
Variable regexTestI : string -> string -> bool.

Let handle := Api.handle verifyMessage ADMIN_WALLET_ADDRESS castObjectId
                oidToString isAddress regexTestI.

(** A request that is answered with [success: false] has written nothing
    and mailed nothing, unless it is a resend of the verification e-mail. *)
Theorem failed_request_writes_nothing (now : Z) (r : Api.Request) (s : Store) :
  isResend r = false ->
  success (response (handle now r s)) = false ->
  store (handle now r s) = s /\ mails (handle now r s) = [].
Proof.
  intros Hres. unfold handle, Api.handle.
  destruct r as [oid rnd body|token|userId postUrl_| |w sg m op].
  - destruct (Validation.validateWaitlistSubmission isAddress body);
      simpl; [auto|].
    unfold WaitlistController.submit, createEntry, save.
    destruct (negb (schemaValidate _)); simpl; [auto|].
    destruct (violatesUnique _ s); simpl; [auto|]. discriminate.
  - unfold WaitlistController.verifyEmail.
    destruct (negb (Js.truthy token)); simpl; [auto|].
    destruct (findByVerificationToken token s) as [entry|]; simpl; [|auto].
    destruct (emailVerified entry); simpl; [discriminate|].
    destruct (WaitlistService.verifyEmail token now s); simpl. discriminate.
  - unfold WaitlistController.savePost.
    destruct (_ || _); simpl; [auto|].
    destruct (postUrlMatch postUrl_) as [groups|]; simpl; [|auto].
    destruct (findById castObjectId (IdStr userId) s) as [[entry|]|];
      simpl; auto.
    destruct (negb (emailVerified entry)); simpl; [auto|].
    match goal with |- context [if ?b then _ else _] => destruct b end;
      simpl; [auto|].
    destruct (findByIdAndUpdate (_id entry) _ now s); simpl. discriminate.
  - simpl. auto.
  - destruct (Auth.verifyWalletSignature _ _ w sg m); simpl; [|auto].
    destruct op as [pg lm st se|i st|i|i rnd ok|]; simpl in *;
      try discriminate Hres.
    + unfold AdminController.getEntries.
      destruct (getEntries regexTestI pg lm st se s); simpl; [discriminate|auto].
    + destruct (Validation.validateStatusUpdate st); simpl; [auto|].
      unfold AdminController.updateStatus, findById, updateStatus. simpl castId.
      destruct (castObjectId i) as [oid|]; simpl; [|auto].
      destruct (Waitlist.findById oid s); simpl; [|auto].
      pose proof (updateFirst_fst_none (hasId oid)
                    (fun e => set_updatedAt now (set_status st e)) s) as Hn.
      unfold findByIdAndUpdate, findOneAndUpdate.
      destruct (updateFirst (hasId oid) _ s) as [[x|] s']; simpl in *;
        [discriminate|]. intros _. split; [now apply Hn | reflexivity].
    + unfold AdminController.deleteEntry, findById, deleteEntry. simpl castId.
      destruct (castObjectId i) as [oid|]; simpl; [|auto].
      destruct (Waitlist.findById oid s); simpl; [|auto].
      pose proof (findByIdAndDelete_fst_none oid s) as Hn.
      destruct (findByIdAndDelete oid s) as [[x|] s']; simpl in *;
        [discriminate|]. intros _. split; [now apply Hn | reflexivity].
    + discriminate.
Qed.

(** Every verification e-mail handed to the e-mail service carries the
    token that the resulting collection holds for an entry with the
    recipient's address. *)
Theorem mailed_tokens_are_live (now : Z) (r : Api.Request) (s : Store) :
  forall m, In m (mails (handle now r s)) ->
  exists e, In e (store (handle now r s)) /\
            email e = mailTo m /\ verificationToken e = Some (mailToken m).
Proof.
  unfold handle, Api.handle.
  destruct r as [oid rnd body|token|userId postUrl_| |w sg m0 op].
  - destruct (Validation.validateWaitlistSubmission isAddress body);
      simpl; [intros m []|].
    unfold WaitlistController.submit, createEntry, save.
    destruct (negb (schemaValidate _)); simpl; [intros m []|].
    destruct (violatesUnique _ s); simpl; [intros m []|].
    intros m [<-|[]]. exists (newEntry oid rnd now body).
    split; [apply in_or_app; right; now left|]. split; reflexivity.
  - unfold WaitlistController.verifyEmail.
    destruct (negb (Js.truthy token)); simpl; [intros m []|].
    destruct (findByVerificationToken token s) as [entry|]; simpl; [|intros m []].
    destruct (emailVerified entry); simpl; [intros m []|].
    destruct (WaitlistService.verifyEmail token now s); simpl. intros m [].
  - unfold WaitlistController.savePost.
    destruct (_ || _); simpl; [intros m []|].
    destruct (postUrlMatch postUrl_) as [groups|]; simpl; [|intros m []].
    destruct (findById castObjectId (IdStr userId) s) as [[entry|]|];
      simpl; try (intros m []).
    destruct (negb (emailVerified entry)); simpl; [intros m []|].
    match goal with |- context [if ?b then _ else _] => destruct b end;
      simpl; [intros m []|].
    destruct (findByIdAndUpdate (_id entry) _ now s); simpl. intros m [].
  - simpl. intros m [].
  - destruct (Auth.verifyWalletSignature _ _ w sg m0); simpl; [|intros m []].
    destruct op as [pg lm st se|i st|i|i rnd ok|]; simpl.
    + unfold AdminController.getEntries.
      destruct (getEntries regexTestI pg lm st se s); simpl; intros m [].
    + destruct (Validation.validateStatusUpdate st); simpl; [intros m []|].
      unfold AdminController.updateStatus.
      destruct (findById castObjectId (IdStr i) s) as [[entry|]|];
        simpl; try (intros m []).
      destruct (updateStatus castObjectId (IdStr i) st now s) as [[[x|] s']|];
        simpl; intros m [].
    + unfold AdminController.deleteEntry.
      destruct (findById castObjectId (IdStr i) s) as [[entry|]|];
        simpl; try (intros m []).
      destruct (deleteEntry castObjectId (IdStr i) s) as [[[x|] s']|];
        simpl; intros m [].
    + unfold AdminController.resendVerification, findById. simpl castId.
      destruct (castObjectId i) as [oid|]; simpl; [|intros m []].
      destruct (Waitlist.findById oid s) as [entry|] eqn:Hfind; simpl; [|intros m []].
      destruct (emailVerified entry); simpl; [intros m []|].
      assert (Hin : In entry s) by (apply find_In in Hfind; tauto).
      assert (Hid : _id entry = oid).
      { apply find_In in Hfind. now apply hasId_true. }
      assert (Hfresh : forall m,
        In m (mails
          match saveLoaded (set_verificationToken (Some rnd) entry) now s with
          | inl _ => reply 500 false "Failed to send verification email" s
          | inr s' =>
              if ok
              then mkOutcome
                     (mkResponse 200 true "Verification email sent successfully" NoData)
                     s' [mkMail (email entry) rnd (name entry)]
              else mkOutcome
                     (mkResponse 500 false "Failed to send verification email" NoData)
                     s' [mkMail (email entry) rnd (name entry)]
          end) ->
        exists e,
          In e (store
            match saveLoaded (set_verificationToken (Some rnd) entry) now s with
            | inl _ => reply 500 false "Failed to send verification email" s
            | inr s' =>
                if ok
                then mkOutcome
                       (mkResponse 200 true "Verification email sent successfully" NoData)
                       s' [mkMail (email entry) rnd (name entry)]
                else mkOutcome
                       (mkResponse 500 false "Failed to send verification email" NoData)
                       s' [mkMail (email entry) rnd (name entry)]
            end) /\
          email e = mailTo m /\ verificationToken e = Some (mailToken m)).
      { unfold saveLoaded.
        destruct (negb (schemaValidate _)); simpl; [intros m []|].
        assert (Hnew :
          In (set_updatedAt now (set_verificationToken (Some rnd) entry))
             (snd (findByIdAndUpdate (_id (set_verificationToken (Some rnd) entry))
                     (fun _ => set_verificationToken (Some rnd) entry) now s))).
        { simpl _id. rewrite Hid.
          unfold findByIdAndUpdate, findOneAndUpdate.
          pose proof (find_updateFirst (hasId oid)
                        (fun _ => set_updatedAt now
                                    (set_verificationToken (Some rnd) entry))
                        s entry Hfind) as Hf.
          apply find_In in Hf; [tauto|]. apply hasId_true. exact Hid. }
        destruct ok; simpl; intros m [<-|[]];
          (eexists; split; [exact Hnew|]; split; reflexivity). }
      destruct (verificationToken entry) as [tok|] eqn:Htok; [|exact Hfresh].
      destruct (Js.truthy tok); [|exact Hfresh].
      destruct ok; simpl; intros m [<-|[]];
        (exists entry; split; [exact Hin|]; split; [reflexivity | exact Htok]).
    + intros m [].
Qed.

(** An admin request succeeds, writes or mails only when the signature
    recovers, up to letter case, to the configured administrator address,
    which is also the claimed one. *)
Theorem admin_requires_signature
    (now : Z) (w sg m : string) (op : Api.AdminOp) (s : Store) :
  let out := handle now (Api.Admin w sg m op) s in
  success (response out) = true \/ store out <> s \/ mails out <> [] ->
  exists recovered admin,
    verifyMessage m sg = Some recovered /\
    ADMIN_WALLET_ADDRESS = Some admin /\
    Js.toLowerCase recovered = Js.toLowerCase admin /\
    Js.toLowerCase w = Js.toLowerCase admin.
Proof.
  intros out. unfold out, handle, Api.handle.
  destruct (Auth.verifyWalletSignature verifyMessage ADMIN_WALLET_ADDRESS w sg m)
    as [adminWallet|code msg] eqn:Hauth.
  - intros _. unfold Auth.verifyWalletSignature in Hauth.
    destruct (negb (Js.truthy w) || negb (Js.truthy sg) || negb (Js.truthy m));
      [discriminate|].
    destruct (verifyMessage m sg) as [recovered|]; [|discriminate].
    destruct (Js.toLowerCase recovered =? Js.toLowerCase w) eqn:Hrw;
      simpl in Hauth; [|discriminate].
    destruct ADMIN_WALLET_ADDRESS as [admin|]; simpl in Hauth; [|discriminate].
    destruct (negb (Js.truthy (Js.toLowerCase admin))); [discriminate|].
    destruct (Js.toLowerCase admin =? Js.toLowerCase w) eqn:Haw;
      simpl in Hauth; [|discriminate].
    apply String.eqb_eq in Hrw, Haw.
    exists recovered, admin. repeat split; congruence.
  - simpl. intros [H|[H|H]]; [discriminate H | now elim H | now elim H].
Qed.

End Effects.

Section ResendFailure.

Variable castObjectId : string -> option ObjectId.

(** When the e-mail service fails after a fresh token was generated, the
    resend is answered 500 although the new token has been written to the
    entry. *)
Theorem resend_failure_keeps_new_token
    (id_ rnd : string) (now : Z) (s : Store) (i : ObjectId) (entry : Entry) :
  castObjectId id_ = Some i ->
  Waitlist.findById i s = Some entry ->
  emailVerified entry = false ->
  Js.truthyOpt (verificationToken entry) = false ->
  schemaValidate (set_verificationToken (Some rnd) entry) = true ->
  Js.truthy rnd = true ->
  let out := AdminController.resendVerification castObjectId id_ rnd false now s in
  response out = mkResponse 500 false "Failed to send verification email" NoData /\
  Waitlist.findById i (store out)
    = Some (set_updatedAt now (set_verificationToken (Some rnd) entry)) /\
  store out <> s.
Proof.
  intros Hcast Hfind Hunv Htok Hvalid Hrnd out.
  destruct (resendVerification_spec castObjectId id_ rnd false now s i entry
              Hcast Hfind) as (_ & _ & Hfresh).
  destruct (Hfresh Hunv Htok Hvalid) as [Hnew _].
  fold out in Hnew.
  split; [|split; [exact Hnew|]].
  - unfold out, AdminController.resendVerification, findById. simpl castId.
    rewrite Hcast, Hfind, Hunv. unfold saveLoaded. rewrite Hvalid. simpl negb.
    destruct (verificationToken entry) as [t|]; simpl in Htok.
    + rewrite Htok. reflexivity.
    + reflexivity.
  - intros Heq. rewrite Heq, Hfind in Hnew. injection Hnew as Hnew.
    apply (f_equal verificationToken) in Hnew. simpl in Hnew.
    rewrite Hnew in Htok. simpl in Htok. congruence.
Qed.

End ResendFailure.

Lemma resend_failure_keeps_new_token_witness :
  let tokenless := set_verificationToken None Fixtures.john in
  let out := AdminController.resendVerification Fixtures.castObjectId "0x1"
               "fresh-token" false 2000 [tokenless; Fixtures.jane] in
  response out = mkResponse 500 false "Failed to send verification email" NoData /\
  Waitlist.findById 1 (store out)
    = Some (set_updatedAt 2000 (set_verificationToken (Some "fresh-token") tokenless)) /\
  store out <> [tokenless; Fixtures.jane].
Proof.
  exact (resend_failure_keeps_new_token Fixtures.castObjectId "0x1" "fresh-token"
           2000 [set_verificationToken None Fixtures.john; Fixtures.jane] 1
           (set_verificationToken None Fixtures.john)
           eq_refl eq_refl eq_refl eq_refl eq_refl eq_refl).
Defined.

Lemma failed_request_writes_nothing_witness :
  store (Api.handle Fixtures.verifyMessage (Some Fixtures.adminAddress)
           Fixtures.castObjectId Fixtures.oidToString Fixtures.isAddress
           Fixtures.regexTestI 3000
           (Api.PostWaitlist 5 "t5" Fixtures.validWaitlistEntry) [Fixtures.john])
  = [Fixtures.john] /\
  mails (Api.handle Fixtures.verifyMessage (Some Fixtures.adminAddress)
           Fixtures.castObjectId Fixtures.oidToString Fixtures.isAddress
           Fixtures.regexTestI 3000
           (Api.PostWaitlist 5 "t5" Fixtures.validWaitlistEntry) [Fixtures.john])
  = [].
Proof.
  exact (failed_request_writes_nothing Fixtures.verifyMessage
           (Some Fixtures.adminAddress) Fixtures.castObjectId Fixtures.oidToString
           Fixtures.isAddress Fixtures.regexTestI 3000
           (Api.PostWaitlist 5 "t5" Fixtures.validWaitlistEntry) [Fixtures.john]
           eq_refl eq_refl).
Defined.

Lemma mailed_tokens_are_live_witness :
  exists e,
    In e (store (Api.handle Fixtures.verifyMessage (Some Fixtures.adminAddress)
                   Fixtures.castObjectId Fixtures.oidToString Fixtures.isAddress
                   Fixtures.regexTestI 3000
                   (Fixtures.asAdmin (Api.ResendVerification "0x1" "unused" true))
                   [Fixtures.john; Fixtures.jane])) /\
    email e = "john.doe@example.com" /\
    verificationToken e = Some "valid-token-123".
Proof.
  refine (mailed_tokens_are_live Fixtures.verifyMessage
            (Some Fixtures.adminAddress) Fixtures.castObjectId Fixtures.oidToString
            Fixtures.isAddress Fixtures.regexTestI 3000
            (Fixtures.asAdmin (Api.ResendVerification "0x1" "unused" true))
            [Fixtures.john; Fixtures.jane]
            (mkMail "john.doe@example.com" "valid-token-123" "John Doe") _).
  left. reflexivity.
Defined.

Lemma admin_requires_signature_witness :
  exists recovered admin,
    Fixtures.verifyMessage "Admin authentication" Fixtures.adminSignature = Some recovered /\
    Some Fixtures.adminAddress = Some admin /\
    Js.toLowerCase recovered = Js.toLowerCase admin /\
    Js.toLowerCase Fixtures.adminAddress = Js.toLowerCase admin.
Proof.
  refine (admin_requires_signature Fixtures.verifyMessage
            (Some Fixtures.adminAddress) Fixtures.castObjectId Fixtures.oidToString
            Fixtures.isAddress Fixtures.regexTestI 3000
            Fixtures.adminAddress Fixtures.adminSignature "Admin authentication"
            (Api.DeleteEntry "0x1") [Fixtures.john] _).
  left. reflexivity.
Defined.

(** ** Submission and verification, end to end *)


Lemma submit_created_store
    (oid : ObjectId) (rnd : string) (now : Z) (body : Data) (s : Store) :
  statusCode (response (WaitlistController.submit oid rnd now body s)) = 201%Z ->
  store (WaitlistController.submit oid rnd now body s)
  = (s ++ [newEntry oid rnd now body])%list.
Proof.
  unfold WaitlistController.submit, createEntry, save.
  destruct (schemaValidate (newEntry oid rnd now body)); simpl; [|discriminate].
  destruct (violatesUnique (newEntry oid rnd now body) s); simpl;
    [discriminate | reflexivity].
Qed.



(** Submit, then follow the link: when the issued token is not already held
    in the collection, the verification with it succeeds for the new entry,
    which ends verified, approved and without token. *)
Theorem submit_then_verify_succeeds
    (oid : ObjectId) (rnd : string) (now now' : Z) (body : Data) (s : Store) :
  Js.truthy rnd = true ->
  (forall x, In x s -> verificationToken x <> Some rnd) ->
  let submitted := WaitlistController.submit oid rnd now body s in
  statusCode (response submitted) = 201%Z ->
  let verified_ := WaitlistController.verifyEmail rnd now' (store submitted) in
  let e := newEntry oid rnd now body in
  response verified_ =
    mkResponse 200 true
      "Email verified successfully! Welcome to the HASHD waitlist."
      (Verified (email e) oid) /\
  store verified_ = (s ++ [set_updatedAt now' (markVerified e)])%list /\
  mails verified_ = [].
Proof.
  intros Hrnd Hs submitted H201 verified_ e.
  pose proof (submit_created_store oid rnd now body s H201) as Hstore.
  fold submitted e in Hstore.
  unfold verified_. rewrite Hstore.
  rewrite (controller_verifyEmail_first rnd now' s [] e Hrnd Hs eq_refl eq_refl).
  repeat split.
Qed.

Lemma submit_then_verify_succeeds_witness :
  store (WaitlistController.verifyEmail "t7" 4000
           (store (WaitlistController.submit 7 "t7" 3000
                     Fixtures.validWaitlistEntry2 [Fixtures.john])))
  = [Fixtures.john;
     set_updatedAt 4000 (markVerified (newEntry 7 "t7" 3000 Fixtures.validWaitlistEntry2))].
Proof.
  refine (proj1 (proj2
    (submit_then_verify_succeeds 7 "t7" 3000 4000 Fixtures.validWaitlistEntry2
       [Fixtures.john] eq_refl _ eq_refl))).
  intros x [<-|[]]. discriminate.
Defined.

(** ** Statistics along the lifecycle *)

Lemma countDocuments_app (p : Entry -> bool) (a b : Store) :
  countDocuments p (a ++ b)%list = (countDocuments p a + countDocuments p b)%Z.
Proof.
  unfold countDocuments. rewrite filter_app, length_app. lia.
Qed.

Lemma countDocuments_cons (p : Entry -> bool) (x : Entry) (s : Store) :
  countDocuments p (x :: s)
  = ((if p x then 1 else 0) + countDocuments p s)%Z.
Proof.
  unfold countDocuments. simpl. destruct (p x); cbn [List.length]; lia.
Qed.

(** A first verification moves one entry from unverified to verified and
    leaves the total; an entry that was pending moves from pending to
    approved. *)
Theorem verification_moves_statistics
    (token : string) (now : Z) (l1 l2 : Store) (e : Entry) :
  Js.truthy token = true ->
  (forall x, In x l1 -> verificationToken x <> Some token) ->
  verificationToken e = Some token ->
  emailVerified e = false ->
  let before := getStatistics (l1 ++ e :: l2)%list in
  let after :=
    getStatistics (store (WaitlistController.verifyEmail token now (l1 ++ e :: l2)%list)) in
  (total after = total before /\
   verified after = verified before + 1 /\
   unverified after = unverified before - 1)%Z /\
  (status e = "pending" ->
   (pending after = pending before - 1 /\
    approved after = approved before + 1 /\
    rejected after = rejected before)%Z).
Proof.
  intros Htok Hl1 He Hunv before after.
  unfold after. rewrite (controller_verifyEmail_first token now l1 l2 e Htok Hl1 He Hunv).
  unfold before, WaitlistService.getStatistics, Waitlist.getStatistics. simpl store.
  cbn [total verified unverified pending approved rejected].
  rewrite !countDocuments_app, !countDocuments_cons.
  unfold set_updatedAt, markVerified, set_verificationToken, set_status,
    set_emailVerified.
  cbn [emailVerified status]. rewrite Hunv.
  repeat match goal with
         | |- context [countDocuments ?p ?l] => generalize (countDocuments p l); intro
         end.
  split; [cbv -[Z.add Z.sub]; lia|].
  intros Hst. rewrite Hst. cbv -[Z.add Z.sub]. lia.
Qed.

Lemma verification_moves_statistics_witness :
  let before := getStatistics [Fixtures.jane; Fixtures.john; Fixtures.bob] in
  let after :=
    getStatistics (store (WaitlistController.verifyEmail "valid-token-123" 2000
                            [Fixtures.jane; Fixtures.john; Fixtures.bob])) in
  (pending after = pending before - 1 /\
   approved after = approved before + 1 /\
   rejected after = rejected before)%Z.
Proof.
  assert (H1 : forall x, In x [Fixtures.jane] ->
                 verificationToken x <> Some "valid-token-123").
  { intros x [<-|[]]; discriminate. }
  exact (proj2 (verification_moves_statistics "valid-token-123" 2000
                  [Fixtures.jane] [Fixtures.bob] Fixtures.john
                  eq_refl H1 eq_refl eq_refl) eq_refl).
Defined.

(** An accepted submission adds one to [total], [pending] and
    [unverified] and leaves the other counters. *)
Theorem submission_moves_statistics
    (oid : ObjectId) (rnd : string) (now : Z) (body : Data) (s : Store) :
  let out := WaitlistController.submit oid rnd now body s in
  statusCode (response out) = 201%Z ->
  let before := getStatistics s in
  let after := getStatistics (store out) in
  (total after = total before + 1 /\
   pending after = pending before + 1 /\
   unverified after = unverified before + 1 /\
   verified after = verified before /\
   approved after = approved before /\
   rejected after = rejected before)%Z.
Proof.
  intros out H201 before after.
  pose proof (submit_created_store oid rnd now body s H201) as Hstore.
  unfold after, out. rewrite Hstore.
  unfold before, WaitlistService.getStatistics, Waitlist.getStatistics.
  cbn [total verified unverified pending approved rejected].
  rewrite !countDocuments_app, !countDocuments_cons.
  unfold newEntry, Waitlist.new. cbn [emailVerified status].
  replace (countDocuments (fun _ => true) []) with 0%Z by reflexivity.
  replace (countDocuments (fun e => Bool.eqb (emailVerified e) true) [])
    with 0%Z by reflexivity.
  replace (countDocuments (fun e => status e =? "pending") []) with 0%Z by reflexivity.
  replace (countDocuments (fun e => status e =? "approved") []) with 0%Z by reflexivity.
  replace (countDocuments (fun e => status e =? "rejected") []) with 0%Z by reflexivity.
  repeat match goal with
         | |- context [countDocuments ?p ?l] => generalize (countDocuments p l); intro
         end.
  cbv -[Z.add Z.sub]. lia.
Qed.

Lemma submission_moves_statistics_witness :
  (total (getStatistics
            (store (WaitlistController.submit 7 "t7" 3000
                      Fixtures.validWaitlistEntry2 [Fixtures.john])))
   = total (getStatistics [Fixtures.john]) + 1)%Z.
Proof.
  exact (proj1 (submission_moves_statistics 7 "t7" 3000
                  Fixtures.validWaitlistEntry2 [Fixtures.john] eq_refl)).
Defined.

(** ** Pagination *)

Lemma length_insertDesc (e : Entry) (l : list Entry) :
  List.length (insertDesc e l) = S (List.length l).
Proof.
  induction l as [|x l IH]; simpl; [reflexivity|].
  destruct (createdAt x <=? createdAt e)%Z; simpl; [reflexivity | now rewrite IH].
Qed.

Lemma length_sortDesc (l : list Entry) : List.length (sortDesc l) = List.length l.
Proof.
  induction l as [|x l IH]; simpl; [reflexivity|].
  rewrite length_insertDesc. now rewrite IH.
Qed.

(** Newest first: every element is at least as recent as those after it. *)
Fixpoint descending (l : list Entry) : Prop :=
  match l with
  | [] => True
  | x :: r => (forall y, In y r -> (createdAt y <= createdAt x)%Z) /\ descending r
  end.

Lemma descending_insertDesc (e : Entry) (l : list Entry) :
  descending l -> descending (insertDesc e l).
Proof.
  induction l as [|x l IH]; simpl.
  - intros _. split; [intros y []|exact I].
  - intros [Hx Hl]. destruct (createdAt x <=? createdAt e)%Z eqn:Hc; simpl.
    + apply Z.leb_le in Hc. split; [|split; assumption].
      intros y [<-|Hy]; [exact Hc|]. specialize (Hx y Hy). lia.
    + apply Z.leb_gt in Hc. split; [|now apply IH].
      intros y Hy. apply In_insertDesc in Hy. destruct Hy as [->|Hy]; [lia|auto].
Qed.

Lemma descending_sortDesc (l : list Entry) : descending (sortDesc l).
Proof.
  induction l as [|x l IH]; simpl; [exact I|]. now apply descending_insertDesc.
Qed.

Lemma descending_app (a b : list Entry) :
  descending (a ++ b)%list -> descending a /\ descending b.
Proof.
  induction a as [|x a IH]; simpl; [auto|].
  intros [Hx Hab]. destruct (IH Hab) as [Ha Hb].
  repeat split; auto. intros y Hy. apply Hx. apply in_or_app. now left.
Qed.

Lemma descending_skipLimit (n m : Z) (l found : list Entry) :
  skipLimit n m l = Some found -> descending l -> descending found.
Proof.
  unfold skipLimit. destruct (n <? 0)%Z; [discriminate|].
  intros H Hl. injection H as <-.
  assert (Hskip : descending (skipn (Z.to_nat n) l)).
  { rewrite <- (firstn_skipn (Z.to_nat n) l) in Hl.
    now apply descending_app in Hl. }
  destruct (m =? 0)%Z; [exact Hskip|].
  rewrite <- (firstn_skipn (Z.to_nat (Z.abs m)) (skipn (Z.to_nat n) l)) in Hskip.
  now apply descending_app in Hskip.
Qed.

Section Pagination.

Variable regexTestI : string -> string -> bool.


(** Whatever the page, the entries listed are documents of the collection
    that match the query (in particular they carry the requested status),
    newest first. *)
Theorem getPaginated_content
    (page_ limit_ : Z) (status_ search : string) (ev : option bool) (s : Store)
    (result : Page) :
  getPaginated regexTestI page_ limit_ status_ search ev s = Some result ->
  exists found,
    entries result = map toObject found /\
    descending found /\
    forall e, In e found ->
      In e s /\
      query regexTestI status_ search ev e = true /\
      (Js.truthy status_ = true -> status e = status_) /\
      (forall b, ev = Some b -> emailVerified e = b).
Proof.
  unfold getPaginated.
  destruct (skipLimit _ _ _) as [found|] eqn:Hfound; [|discriminate].
  intros H. injection H as <-. exists found. split; [reflexivity|]. split.
  - apply (descending_skipLimit _ _ _ _ Hfound). apply descending_sortDesc.
  - intros e He. apply (In_skipLimit _ _ _ _ _ Hfound) in He.
    apply In_sortDesc in He. apply filter_In in He. destruct He as [Hin Hq].
    split; [exact Hin|]. split; [exact Hq|].
    unfold query in Hq. apply andb_true_iff in Hq. destruct Hq as [Hq _].
    apply andb_true_iff in Hq. destruct Hq as [Hst Hev]. split.
    + intros Htr. rewrite Htr in Hst. now apply String.eqb_eq.
    + intros b ->. now apply Bool.eqb_prop in Hev.
Qed.

End Pagination.


Lemma getPaginated_content_witness :
  exists found,
    [toObject Fixtures.bob; toObject Fixtures.jane] = map toObject found /\
    descending found /\
    forall e, In e found ->
      In e [Fixtures.john; Fixtures.jane; Fixtures.bob] /\
      query Fixtures.regexTestI "approved" "" None e = true /\
      (Js.truthy "approved" = true -> status e = "approved") /\
      (forall b, None = Some b -> emailVerified e = b).
Proof.
  exact (getPaginated_content Fixtures.regexTestI 1 50 "approved" "" None
           [Fixtures.john; Fixtures.jane; Fixtures.bob]
           (mkPage [toObject Fixtures.bob; toObject Fixtures.jane]
              (mkPagination 1 50 2 (Some 1%Z)))
           eq_refl).
Defined.

(** ** The safe projection *)

Lemma getKey_deleteKey (k k' : string) (o : Object) :
  getKey k (deleteKey k' o) = if k =? k' then None else getKey k o.
Proof.
  unfold getKey, deleteKey.
  induction o as [|[a v] o IH]; simpl.
  - now destruct (k =? k').
  - destruct (a =? k') eqn:Hak; simpl.
    + apply String.eqb_eq in Hak. subst a.
      destruct (k' =? k) eqn:Hk.
      * apply String.eqb_eq in Hk. subst k'. rewrite String.eqb_refl in IH |- *.
        exact IH.
      * rewrite IH. rewrite String.eqb_sym, Hk. reflexivity.
    + destruct (a =? k) eqn:Ha; [|exact IH].
      apply String.eqb_eq in Ha. subst a. now rewrite Hak.
Qed.

(** [toSafeObject] removes the verification token and nothing else: every
    other key keeps the value it has in the full object. *)
Theorem toSafeObject_removes_only_token (e : Entry) (k : string) :
  getKey "verificationToken" (toSafeObject e) = None /\
  (k <> "verificationToken" -> getKey k (toSafeObject e) = getKey k (toObject e)).
Proof.
  unfold toSafeObject. split; [reflexivity|].
  intros Hk. rewrite getKey_deleteKey.
  apply String.eqb_neq in Hk. now rewrite Hk.
Qed.

Lemma toSafeObject_removes_only_token_witness :
  getKey "email" (toSafeObject Fixtures.john) = getKey "email" (toObject Fixtures.john).
Proof.
  refine (proj2 (toSafeObject_removes_only_token Fixtures.john "email") _).
  discriminate.
Defined.

(** ** The signature check of the standalone server *)

Definition authCode (r : Auth.Result) : Z :=
  match r with
  | Auth.Next _ => 200%Z
  | Auth.Reject code _ => code
  end.

Section TwoSignatureChecks.

Variable verifyMessage : string -> string -> option string.

(** With an administrator address configured, the signature check of the
    standalone server and the middleware of the application decide alike:
    same status, and the same address handed on when they pass.  With none
    configured, a self-consistent attempt is answered 403 by the former and
    500 by the latter. *)
Theorem legacy_auth_agrees (walletAddress signature message_ : string) :
  (forall admin, Js.truthy admin = true ->
     let legacy := StandaloneServer.verifyWalletSignature verifyMessage (Some admin)
                     walletAddress signature message_ in
     let current := Auth.verifyWalletSignature verifyMessage (Some admin)
                      walletAddress signature message_ in
     authCode legacy = authCode current /\
     (forall a, legacy = Auth.Next a <-> current = Auth.Next a)) /\
  (forall recovered,
     Js.truthy walletAddress = true ->
     Js.truthy signature = true ->
     Js.truthy message_ = true ->
     verifyMessage message_ signature = Some recovered ->
     Js.toLowerCase recovered = Js.toLowerCase walletAddress ->
     authCode (StandaloneServer.verifyWalletSignature verifyMessage None
                 walletAddress signature message_) = 403%Z /\
     authCode (Auth.verifyWalletSignature verifyMessage None
                 walletAddress signature message_) = 500%Z).
Proof.
  split.
  - intros admin Hadmin legacy current.
    unfold legacy, current, StandaloneServer.verifyWalletSignature,
      Auth.verifyWalletSignature, StandaloneServer.ADMIN_WALLET.
    destruct (negb (Js.truthy walletAddress) || negb (Js.truthy signature)
              || negb (Js.truthy message_)); [simpl; tauto|].
    destruct (verifyMessage message_ signature) as [recovered|]; [|simpl; tauto].
    destruct (Js.toLowerCase recovered =? Js.toLowerCase walletAddress) eqn:Hrw;
      simpl negb; cbv iota; [|simpl; tauto].
    apply String.eqb_eq in Hrw. rewrite Hrw.
    simpl option_map. unfold Js.truthyOpt, Js.strIsOpt.
    rewrite truthy_toLowerCase, Hadmin. simpl negb. cbv iota.
    destruct (Js.toLowerCase admin =? Js.toLowerCase walletAddress); simpl;
      (split; [reflexivity | intros a; split; intros H; (discriminate H || exact H)]).
  - intros recovered Hw Hs Hm Hrec Heq.
    unfold StandaloneServer.verifyWalletSignature, Auth.verifyWalletSignature.
    rewrite Hw, Hs, Hm. simpl. rewrite Hrec, Heq, String.eqb_refl. simpl. auto.
Qed.

End TwoSignatureChecks.

Lemma legacy_auth_agrees_witness :
  authCode (StandaloneServer.verifyWalletSignature Fixtures.verifyMessage
              (Some Fixtures.adminAddress)
              "0x70997970C51812dc3A010C7d01b50e0d17dc79C8"
              "signed:hello:0x70997970c51812dc3a010c7d01b50e0d17dc79c8" "hello")
  = authCode (Auth.verifyWalletSignature Fixtures.verifyMessage
                (Some Fixtures.adminAddress)
                "0x70997970C51812dc3A010C7d01b50e0d17dc79C8"
                "signed:hello:0x70997970c51812dc3a010c7d01b50e0d17dc79c8" "hello").
Proof.
  exact (proj1 (proj1 (legacy_auth_agrees Fixtures.verifyMessage
                         "0x70997970C51812dc3A010C7d01b50e0d17dc79C8"
                         "signed:hello:0x70997970c51812dc3a010c7d01b50e0d17dc79c8"
                         "hello")
                  Fixtures.adminAddress eq_refl)).
Defined.

(** ** The statistics of the standalone listing *)

Import StandaloneServer.

Definition sumCounts (g : list (string * Z)) : Z :=
  fold_right (fun b acc => (snd b + acc)%Z) 0%Z g.

Fixpoint assoc (k : string) (g : list (string * Z)) : option Z :=
  match g with
  | [] => None
  | (k', v) :: r => if k' =? k then Some v else assoc k r
  end.

(** The count of a key, zero when it has no bucket. *)
Definition countOf (k : string) (g : list (string * Z)) : Z :=
  match assoc k g with Some n => n | None => 0%Z end.

Lemma sumCounts_bump (k : string) (g : list (string * Z)) :
  sumCounts (bump k g) = (sumCounts g + 1)%Z.
Proof.
  induction g as [|[k' n] g IH]; simpl; [reflexivity|].
  destruct (k' =? k); simpl; [lia | rewrite IH; lia].
Qed.

Lemma sumCounts_group (l : list string) (acc : list (string * Z)) :
  sumCounts (fold_left (fun g k => bump k g) l acc)
  = (sumCounts acc + Z.of_nat (List.length l))%Z.
Proof.
  revert acc. induction l as [|k l IH]; intros acc; simpl fold_left.
  - simpl. lia.
  - rewrite IH, sumCounts_bump. cbn [List.length]. lia.
Qed.

Lemma countOf_bump (k k' : string) (g : list (string * Z)) :
  countOf k (bump k' g) = (countOf k g + if (k' =? k)%string then 1 else 0)%Z.
Proof.
  unfold countOf. induction g as [|[a n] g IH]; simpl.
  - destruct (k' =? k); reflexivity.
  - destruct (a =? k') eqn:Hak; simpl.
    + apply String.eqb_eq in Hak. subst a.
      destruct (k' =? k); lia.
    + destruct (a =? k) eqn:Ha; [|exact IH].
      apply String.eqb_eq in Ha. subst a.
      rewrite String.eqb_sym, Hak. lia.
Qed.

Lemma countOf_group (k : string) (l : list string) (acc : list (string * Z)) :
  countOf k (fold_left (fun g x => bump x g) l acc)
  = (countOf k acc + Z.of_nat (List.length (filter (fun x => (x =? k)%string) l)))%Z.
Proof.
  revert acc. induction l as [|x l IH]; intros acc; simpl fold_left.
  - simpl. lia.
  - rewrite IH, countOf_bump. simpl filter.
    destruct (x =? k); cbn [List.length]; lia.
Qed.

Lemma keys_bump (k x : string) (g : list (string * Z)) :
  In x (map fst (bump k g)) <-> x = k \/ In x (map fst g).
Proof.
  induction g as [|[a n] g IH]; simpl.
  - intuition.
  - destruct (a =? k) eqn:Hak; simpl.
    + apply String.eqb_eq in Hak. subst a. intuition.
    + rewrite IH. intuition.
Qed.

Lemma NoDup_bump (k : string) (g : list (string * Z)) :
  NoDup (map fst g) -> NoDup (map fst (bump k g)).
Proof.
  induction g as [|[a n] g IH]; simpl.
  - intros _. constructor; [intros []|constructor].
  - intros Hnd. inversion Hnd as [|? ? Ha Hg]; subst.
    destruct (a =? k) eqn:Hak; simpl.
    + now constructor.
    + constructor; [|now apply IH].
      rewrite keys_bump. intros [->|H]; [|contradiction].
      now rewrite String.eqb_refl in Hak.
Qed.

Lemma NoDup_group (l : list string) (acc : list (string * Z)) :
  NoDup (map fst acc) -> NoDup (map fst (fold_left (fun g k => bump k g) l acc)).
Proof.
  revert acc. induction l as [|k l IH]; intros acc Hacc; simpl; [exact Hacc|].
  apply IH. now apply NoDup_bump.
Qed.

Lemma sumCounts_insertByCount (b : string * Z) (l : list (string * Z)) :
  sumCounts (insertByCount b l) = (snd b + sumCounts l)%Z.
Proof.
  induction l as [|x l IH]; simpl; [reflexivity|].
  destruct (snd x <=? snd b)%Z; simpl; [reflexivity | rewrite IH; lia].
Qed.

Lemma keys_insertByCount (b : string * Z) (x : string) (l : list (string * Z)) :
  In x (map fst (insertByCount b l)) <-> x = fst b \/ In x (map fst l).
Proof.
  induction l as [|y l IH]; simpl.
  - intuition.
  - destruct (snd y <=? snd b)%Z; simpl; [intuition|]. rewrite IH. intuition.
Qed.

Lemma NoDup_insertByCount (b : string * Z) (l : list (string * Z)) :
  NoDup (map fst l) -> ~ In (fst b) (map fst l) ->
  NoDup (map fst (insertByCount b l)).
Proof.
  induction l as [|y l IH]; simpl.
  - intros _ _. constructor; [intros []|constructor].
  - intros Hnd Hb. inversion Hnd as [|? ? Hy Hl]; subst.
    destruct (snd y <=? snd b)%Z; simpl.
    + constructor; [exact Hb | exact Hnd].
    + constructor; [|apply IH; auto].
      rewrite keys_insertByCount. intros [Heq|H]; [|contradiction].
      apply Hb. left. now symmetry.
Qed.

Lemma sortByCount_facts (l : list (string * Z)) :
  NoDup (map fst l) ->
  sumCounts (sortByCount l) = sumCounts l /\
  NoDup (map fst (sortByCount l)) /\
  (forall x, In x (map fst (sortByCount l)) <-> In x (map fst l)).
Proof.
  induction l as [|b l IH]; simpl.
  - intros _. repeat split; auto; constructor.
  - intros Hnd. inversion Hnd as [|? ? Hb Hl]; subst.
    destruct (IH Hl) as (Hsum & Hnd' & Hkeys).
    split; [rewrite sumCounts_insertByCount; lia|]. split.
    + apply NoDup_insertByCount; [exact Hnd'|]. now rewrite Hkeys.
    + intros x. rewrite keys_insertByCount, Hkeys. simpl. intuition.
Qed.

Lemma setKey_fresh (k : string) (v : Z) (o : list (string * Z)) :
  ~ In k (map fst o) -> setKey k v o = (o ++ [(k, v)])%list.
Proof.
  induction o as [|[a n] o IH]; simpl; [reflexivity|].
  intros Hk. destruct (a =? k) eqn:Hak.
  - apply String.eqb_eq in Hak. subst a. exfalso. apply Hk. now left.
  - rewrite IH; [reflexivity|]. intros H. apply Hk. now right.
Qed.

Lemma toCounts_acc (g acc : list (string * Z)) :
  NoDup (map fst acc ++ map fst g)%list ->
  fold_left (fun a b => setKey (fst b) (snd b) a) g acc = (acc ++ g)%list.
Proof.
  revert acc. induction g as [|[k v] g IH]; intros acc Hnd; simpl.
  - now rewrite app_nil_r.
  - simpl in Hnd. rewrite setKey_fresh.
    + rewrite IH.
      * rewrite <- app_assoc. reflexivity.
      * rewrite map_app. simpl. rewrite <- app_assoc. exact Hnd.
    + apply NoDup_remove_2 in Hnd. intros H. apply Hnd.
      apply in_or_app. now left.
Qed.

(** Buckets with distinct keys become the object with the same entries. *)
Lemma toCounts_id (g : list (string * Z)) :
  NoDup (map fst g) -> toCounts g = g.
Proof. intros H. unfold toCounts. now rewrite toCounts_acc. Qed.

Section StandaloneListing.

Variable regexTestI : string -> string -> bool.

(** In the listing of the standalone server the statistics describe the
    whole collection, whatever the filter: the counts by status add up to
    the number of documents, the count of a status is the number of
    documents with it, and the counts by role add up to the number of roles
    held over all documents, an entry with two roles counting twice.
    [total] is the number of documents that match the filter. *)
Theorem listing_statistics
    (page_ limit_ : Z) (status_ search : string) (s : Store) (data : ListingData) :
  listing regexTestI page_ limit_ status_ search s = Some data ->
  sumCounts (byStatus data) = Z.of_nat (List.length s) /\
  (forall st, countOf st (byStatus data)
              = countDocuments (fun e => status e =? st) s) /\
  sumCounts (byRole data) = Z.of_nat (List.length (flat_map roles s)) /\
  l_total data = countDocuments (query regexTestI status_ search) s.
Proof.
  unfold listing.
  destruct (skipLimit _ _ _) as [found|]; [|discriminate].
  intros H. injection H as <-. cbn [byStatus byRole l_total].
  assert (Hst : NoDup (map fst (statusStats s)))
    by (apply NoDup_group; constructor).
  assert (Hro : NoDup (map fst (groupCount (flat_map roles s))))
    by (apply NoDup_group; constructor).
  destruct (sortByCount_facts _ Hro) as (Hsum & Hnd & _).
  rewrite (toCounts_id _ Hst). unfold roleStats. rewrite (toCounts_id _ Hnd).
  split; [|split; [|split; [|reflexivity]]].
  - unfold statusStats, groupCount. rewrite sumCounts_group, length_map.
    simpl. lia.
  - intros st. unfold statusStats, groupCount.
    rewrite (countOf_group st (map status s) []).
    unfold countOf, countDocuments. simpl assoc.
    replace (List.length (filter (fun x => x =? st) (map status s)))
      with (List.length (filter (fun e => status e =? st) s)); [lia|].
    clear. induction s as [|e s IH]; simpl; [reflexivity|].
    destruct (status e =? st); simpl; now rewrite IH.
  - rewrite Hsum. unfold groupCount. rewrite sumCounts_group. simpl. lia.
Qed.

End StandaloneListing.

Lemma listing_statistics_witness :
  exists data,
    listing Fixtures.regexTestI 1 50 "pending" ""
      [Fixtures.john; Fixtures.jane; Fixtures.bob] = Some data /\
    sumCounts (byStatus data) = 3%Z /\ l_total data = 1%Z.
Proof.
  eexists. split; [vm_compute; reflexivity|].
  split.
  - exact (proj1 (listing_statistics Fixtures.regexTestI 1 50 "pending" ""
                    [Fixtures.john; Fixtures.jane; Fixtures.bob] _ eq_refl)).
  - exact (proj2 (proj2 (proj2
             (listing_statistics Fixtures.regexTestI 1 50 "pending" ""
                [Fixtures.john; Fixtures.jane; Fixtures.bob] _ eq_refl)))).
Defined.

(** ** The validation middleware and the schema *)




















Lemma length_app (a b : string) :
  String.length (a ++ b) = (String.length a + String.length b)%nat.
Proof. induction a as [|c a IH]; simpl; [reflexivity | now rewrite IH]. Qed.







Section MiddlewareAndSchema.

Variable isAddress : string -> bool.




End MiddlewareAndSchema.



(** ** The admin routes of the standalone server *)

Lemma updateFirst_fst (p : Entry -> bool) (upd : Entry -> Entry) (s : Store) :
  fst (updateFirst p upd s) = option_map upd (find p s).
Proof.
  induction s as [|x s IH]; simpl; [reflexivity|].
  destruct (p x); simpl; [reflexivity|].
  destruct (updateFirst p upd s) as [o r]. exact IH.
Qed.

Lemma findByIdAndDelete_fst (i : ObjectId) (s : Store) :
  fst (findByIdAndDelete i s) = find (hasId i) s.
Proof.
  induction s as [|x s IH]; simpl; [reflexivity|].
  destruct (hasId i x); simpl; [reflexivity|].
  destruct (findByIdAndDelete i s) as [o r]. exact IH.
Qed.

Section StandaloneAdmin.

Variable castObjectId : string -> option ObjectId.
Variable newObjectId : string -> option ObjectId.
Variable regexTestI : string -> string -> bool.

(** Where Mongoose's cast and the driver's [ObjectId] constructor read an
    identifier alike, the status and delete routes of the standalone server
    and of the application answer with the same status code and leave the
    same collection, for every status and every collection. *)
Theorem standalone_admin_routes_agree
    (id_ status_ : string) (now : Z) (s : Store) :
  castObjectId id_ = newObjectId id_ ->
  let legacyU := StandaloneServer.updateStatus newObjectId id_ status_ now s in
  let currentU :=
    Api.adminRoute castObjectId regexTestI (Api.UpdateStatus id_ status_) now s in
  let legacyD := StandaloneServer.deleteEntry newObjectId id_ s in
  let currentD :=
    Api.adminRoute castObjectId regexTestI (Api.DeleteEntry id_) now s in
  (statusCode (response legacyU) = statusCode (response currentU) /\
   store legacyU = store currentU) /\
  (statusCode (response legacyD) = statusCode (response currentD) /\
   store legacyD = store currentD).
Proof.
  intros Hcast legacyU currentU legacyD currentD. split.
  - unfold legacyU, currentU, StandaloneServer.updateStatus, Api.adminRoute,
      Validation.validateStatusUpdate. cbv zeta.
    destruct (Js.includes ["pending"; "approved"; "rejected"] status_) eqn:Hinc.
    + assert (Htr : Js.truthy status_ = true)
        by (destruct status_; [discriminate Hinc | reflexivity]).
      rewrite Htr. cbn [negb].
      unfold AdminController.updateStatus, WaitlistService.findById,
        WaitlistService.updateStatus. cbn [castId].
      rewrite Hcast. destruct (newObjectId id_) as [i|]; [|split; reflexivity].
      unfold findByIdAndUpdate, findOneAndUpdate, Waitlist.findById, findOne.
      pose proof (updateFirst_fst (hasId i)
                    (fun e => set_updatedAt now (set_status status_ e)) s) as Hfst.
      pose proof (updateFirst_fst_none (hasId i)
                    (fun e => set_updatedAt now (set_status status_ e)) s) as Hnone.
      destruct (updateFirst (hasId i)
                  (fun e => set_updatedAt now (set_status status_ e)) s) as [o s'].
      cbn [fst snd] in Hfst, Hnone.
      destruct (find (hasId i) s) as [e|]; simpl in Hfst; subst o.
      * split; reflexivity.
      * rewrite (Hnone eq_refl). split; reflexivity.
    + cbn [negb]. destruct (negb (Js.truthy status_)); split; reflexivity.
  - unfold legacyD, currentD, StandaloneServer.deleteEntry, Api.adminRoute,
      AdminController.deleteEntry, WaitlistService.findById,
      WaitlistService.deleteEntry. cbn [castId].
    rewrite Hcast. destruct (newObjectId id_) as [i|]; [|split; reflexivity].
    unfold Waitlist.findById, findOne.
    pose proof (findByIdAndDelete_fst i s) as Hfst.
    pose proof (findByIdAndDelete_fst_none i s) as Hnone.
    destruct (findByIdAndDelete i s) as [o s'].
    cbn [fst snd] in Hfst, Hnone.
    destruct (find (hasId i) s) as [e|]; subst o.
    + split; reflexivity.
    + rewrite (Hnone eq_refl). split; reflexivity.
Qed.

End StandaloneAdmin.

Lemma standalone_admin_routes_agree_witness :
  store (StandaloneServer.updateStatus Fixtures.castObjectId "0x2" "rejected" 5000
           [Fixtures.john; Fixtures.jane])
  = store (Api.adminRoute Fixtures.castObjectId Fixtures.regexTestI
             (Api.UpdateStatus "0x2" "rejected") 5000 [Fixtures.john; Fixtures.jane]).
Proof.
  exact (proj2 (proj1
    (standalone_admin_routes_agree Fixtures.castObjectId Fixtures.castObjectId
       Fixtures.regexTestI "0x2" "rejected" 5000 [Fixtures.john; Fixtures.jane]
       eq_refl))).
Defined.

(** ** The line structure of the CSV exports *)

Fixpoint lineFeeds (s : string) : nat :=
  match s with
  | EmptyString => 0
  | String c r => ((if Ascii.eqb c "010" then 1 else 0) + lineFeeds r)%nat
  end.

Lemma lineFeeds_app (a b : string) :
  lineFeeds (a ++ b) = (lineFeeds a + lineFeeds b)%nat.
Proof. induction a as [|c a IH]; simpl; [reflexivity | rewrite IH; lia]. Qed.

Lemma lineFeeds_join (sep : string) (l : list string) :
  (forall x, In x l -> lineFeeds x = 0%nat) ->
  lineFeeds (CsvExport.join sep l) = ((List.length l - 1) * lineFeeds sep)%nat.
Proof.
  induction l as [|x l IH]; intros Hl; [reflexivity|].
  destruct l as [|y l].
  - simpl. apply Hl. now left.
  - change (CsvExport.join sep (x :: y :: l))
      with (x ++ sep ++ CsvExport.join sep (y :: l)).
    rewrite !lineFeeds_app, IH by (intros z Hz; apply Hl; now right).
    rewrite (Hl x (or_introl eq_refl)). cbn [List.length]. lia.
Qed.

Lemma lineFeeds_quoted (cell : string) :
  lineFeeds (CsvExport.quoted cell) = lineFeeds cell.
Proof.
  unfold CsvExport.quoted. rewrite !lineFeeds_app. simpl. lia.
Qed.

Section CsvLines.

Variable toISOString : Z -> string.

(** No field of the entry brings a line feed into its row. *)
Definition plain (e : Entry) : Prop :=
  lineFeeds (name e) = 0%nat /\ lineFeeds (email e) = 0%nat /\
  lineFeeds (CsvExport.orEmpty (walletAddress e)) = 0%nat /\
  (forall r, In r (roles e) -> lineFeeds r = 0%nat) /\
  lineFeeds (status e) = 0%nat /\
  lineFeeds (toISOString (createdAt e)) = 0%nat.

Lemma csvRow_plain (e : Entry) :
  plain e -> lineFeeds (CsvExport.csvRow toISOString e) = 0%nat.
Proof.
  intros (Hn & He & Hw & Hr & Hs & Hd).
  unfold CsvExport.csvRow. cbv zeta.
  rewrite !lineFeeds_app, !lineFeeds_quoted, Hn, He, Hw, Hs, Hd.
  rewrite (lineFeeds_join ";" (roles e) Hr).
  destruct (emailVerified e); simpl; lia.
Qed.

Lemma standalone_csvRow_plain (e : Entry) (cell : string) :
  plain e ->
  In cell (map CsvExport.quoted (StandaloneServer.csvRow toISOString e)) ->
  lineFeeds cell = 0%nat.
Proof.
  intros (Hn & He & Hw & Hr & Hs & Hd) Hcell.
  unfold StandaloneServer.csvRow in Hcell. simpl in Hcell.
  destruct Hcell as [<-|[<-|[<-|[<-|[<-|[<-|[]]]]]]];
    rewrite lineFeeds_quoted; auto.
  - destruct (walletAddress e) as [w|]; [|reflexivity].
    destruct (Js.truthy w); [exact Hw | reflexivity].
  - rewrite (lineFeeds_join ", " (roles e) Hr). simpl. lia.
Qed.

(** When no field holds a line feed, both exports have one line per entry
    under the header line, the most recent entry first: the export of the
    application holds as many line feeds as entries (one for an empty
    collection, the header ending with one), that of the standalone server
    exactly as many as entries. *)
Theorem exports_one_line_per_entry (s : Store) :
  (forall e, In e s -> plain e) ->
  lineFeeds (CsvExport.exportCSV toISOString s) = Nat.max 1 (List.length s) /\
  lineFeeds (StandaloneServer.exportCSV toISOString s) = List.length s.
Proof.
  intros Hplain.
  assert (Hsorted : forall e, In e (sortDesc s) -> plain e)
    by (intros e He; apply Hplain; now apply In_sortDesc).
  split.
  - unfold CsvExport.exportCSV, CsvExport.getAllEntries, CsvExport.csvHeader.
    cbv zeta. rewrite !lineFeeds_app, lineFeeds_join.
    + rewrite length_map, length_sortDesc.
      destruct (List.length s) as [|n]; [reflexivity|]. simpl. lia.
    + intros x Hx. apply in_map_iff in Hx. destruct Hx as (e & <- & He).
      apply csvRow_plain. now apply Hsorted.
  - unfold StandaloneServer.exportCSV. cbv zeta.
    rewrite lineFeeds_join.
    + cbn [List.length]. rewrite !length_map, length_sortDesc. simpl. lia.
    + intros x [<-|Hx]; [reflexivity|].
      apply in_map_iff in Hx. destruct Hx as (row & <- & Hrow).
      apply in_map_iff in Hrow. destruct Hrow as (e & <- & He).
      rewrite lineFeeds_join; [simpl; lia|].
      intros cell Hcell. apply (standalone_csvRow_plain e cell); auto.
Qed.

End CsvLines.

Lemma exports_one_line_per_entry_witness :
  lineFeeds (CsvExport.exportCSV (fun _ => "2024-01-01T00:00:00.000Z")
               [Fixtures.john; Fixtures.jane]) = 2%nat.
Proof.
  refine (proj1 (exports_one_line_per_entry (fun _ => "2024-01-01T00:00:00.000Z")
                   [Fixtures.john; Fixtures.jane] _)).
  intros e [<-|[<-|[]]]; repeat split; try reflexivity;
    simpl; intros r Hr; repeat (destruct Hr as [<-|Hr]; [reflexivity|]);
    destruct Hr.
Defined.
